(** * Beeftext: the text substitution engine of [BeeftextUtils.cpp]

    A shallow embedding of the output stage of Beeftext
    ([src/Beeftext/BeeftextUtils.cpp]): the grapheme estimate
    [printableCharacterCount], the modifier key bracket
    ([backupAndReleaseModifierKeys] / [restoreModifierKeys]), the foreground
    executable lookup, [snippetToPlainText] and the orchestrator
    [performTextSubstitution].

    Strings are [QString]s, that is sequences of UTF-16 code units; 32-bit
    integers are [Z] with the wrap-around written out; the operating system,
    the clipboard and the keyboard hook form an explicit [World] that the
    code threads through a small state-and-exception monad. *)

From Stdlib Require Import ZArith List Bool Lia.
From stdpp Require Import base decidable gmap sets list.

Local Open Scope Z_scope.
Set Warnings "-clear-no-such-hyp".

(** ** Strings and 32-bit integers *)

Module QStr.

(** A [QChar] is one UTF-16 code unit; a [QString] is a sequence of them.
    The null string [QString()] and the empty string are both [[]]. *)
Definition QChar := Z.
Definition QString := list QChar.

Definition LineFeed : QChar := 0x000a.
Definition ReplacementCharacter : Z := 0xfffd.

(** [qint32] conversion: the value modulo 2^32, read as two's complement. *)
Definition wrap32 (z : Z) : Z := (z + 2 ^ 31) mod 2 ^ 32 - 2 ^ 31.

(** [quint32] conversion. *)
Definition wrapU32 (z : Z) : Z := z mod 2 ^ 32.

(** [qMax<qint32>]. *)
Definition qMax (a b : Z) : Z := if a <? b then b else a.

(** Qt: [QChar::isSurrogate], [isHighSurrogate], [isLowSurrogate] and
    [QChar::surrogateToUcs4]. *)
Definition isSurrogate (c : Z) : bool := Z.land c 0xf800 =? 0xd800.
Definition isHighSurrogate (c : Z) : bool := Z.land c 0xfc00 =? 0xd800.
Definition isLowSurrogate (c : Z) : bool := Z.land c 0xfc00 =? 0xdc00.
Definition surrogateToUcs4 (high low : Z) : Z :=
  Z.shiftl high 10 + low - 0x35fdc00.

(** Qt: [QString::toUcs4]. A well-formed surrogate pair yields one code
    point, every other surrogate yields U+FFFD, any other unit is itself. *)
Fixpoint toUcs4 (s : QString) : list Z :=
  match s with
  | [] => []
  | cur :: rest =>
      if isSurrogate cur then
        match rest with
        | low :: rest' =>
            if isHighSurrogate cur && isLowSurrogate low
            then surrogateToUcs4 cur low :: toUcs4 rest'
            else ReplacementCharacter :: toUcs4 rest
        | [] => [ReplacementCharacter]
        end
      else cur :: toUcs4 rest
  end.

(** [QString::remove(QChar)]: every occurrence of the unit is dropped. *)
Definition remove (c : QChar) (s : QString) : QString :=
  List.filter (fun x => negb (x =? c)) s.

End QStr.
Import QStr.

(** ** The grapheme counter *)

Definition isZeroWidthJoiner (c : Z) : bool := c =? 0x200d.
Definition isFitzpatrick (c : Z) : bool := (c >=? 0x1f3fb) && (c <=? 0x1f3ff).

(** One turn of the loop of [printableCharacterCount]: both tests are made
    on every code point, each subtraction is a [qint32] subtraction. *)
Definition countStep (result c : Z) : Z :=
  let result := if isZeroWidthJoiner c then wrap32 (result - 2) else result in
  if isFitzpatrick c then wrap32 (result - 1) else result.

Definition printableCharacterCount (str : QString) : Z :=
  let ucs4 := toUcs4 str in
  let result := wrap32 (Z.of_nat (length ucs4)) in
  let result := fold_left countStep ucs4 result in
  wrap32 (wrapU32 (qMax 0 result)).

(** The quantities the estimate is described with. *)
Definition codePoints (str : QString) : Z := Z.of_nat (length (toUcs4 str)).
Definition joiners (str : QString) : Z :=
  Z.of_nat (length (List.filter isZeroWidthJoiner (toUcs4 str))).
Definition modifiers (str : QString) : Z :=
  Z.of_nat (length (List.filter isFitzpatrick (toUcs4 str))).

(** A code point that is neither the joiner nor a skin-tone modifier. *)
Definition plainCodePoint (c : Z) : Prop :=
  isZeroWidthJoiner c = false /\ isFitzpatrick c = false.

(** ** The world the engine acts on *)

(** Windows virtual-key codes used by the engine. *)
Definition VK_BACK : Z := 0x08.
Definition VK_RETURN : Z := 0x0d.
Definition VK_LEFT : Z := 0x25.
Definition VK_V : Z := 0x56.
Definition VK_LWIN : Z := 0x5b.
Definition VK_RWIN : Z := 0x5c.
Definition VK_LSHIFT : Z := 0xa0.
Definition VK_RSHIFT : Z := 0xa1.
Definition VK_LCONTROL : Z := 0xa2.
Definition VK_RCONTROL : Z := 0xa3.
Definition VK_LMENU : Z := 0xa4.
Definition VK_RMENU : Z := 0xa5.

Definition modifierKeys : list Z :=
  [VK_LCONTROL; VK_RCONTROL; VK_LMENU; VK_RMENU; VK_LSHIFT; VK_RSHIFT; VK_LWIN;
   VK_RWIN].

Definition kObjectReplacementChar : QChar := 0xfffc.

(** What the clipboard holds. *)
Inductive ClipData :=
| ClipEmpty
| ClipText (text : QString)
| ClipHtml (html : QString).

(** The deferred call handed to [QTimer::singleShot]. *)
Inductive Callback :=
| RestoreClipboard.

(** What the engine does to its collaborators, in the order it does it. *)
Inductive Event :=
| EvSetKeyboardHookEnabled (enabled : bool)
| EvKeyDown (key : Z)
| EvKeyUp (key : Z)
| EvUnicodeKeyDownAndUp (c : Z)
| EvSleep (ms : Z)
| EvBackupClipboard
| EvSetHtml (html : QString)
| EvSetText (text : QString)
| EvSingleShot (ms : Z) (cb : Callback).

(** The two kinds of C++ exception the orchestrator tells apart: an
    [xmilib::Exception] (the type its [catch] clause names) and an exception
    of any other type. *)
Inductive exn :=
| Exception
| OtherException.

(** Result of the two Win32 queries of [getActiveExecutableFileName]:
    the handle returned by [OpenProcess] (0 is the null handle), the value
    returned by [GetModuleFileNameEx] (0 on failure) and the buffer it
    filled. *)
Record Foreground := {
  processHandle : Z;
  moduleFileNameEx : Z;
  buffer : QString
}.

Record World := {
  keyboardHookEnabled : bool;      (* InputManager's hook flag *)
  pressed : gset Z;                (* keys GetKeyState reports as down *)
  clipboard : ClipData;
  clipboardBackup : option ClipData;
  timers : list (Z * Callback);    (* pending single-shot timers *)
  foreground : Foreground;
  pendingFaults : list (option exn); (* outcome of the next fallible calls *)
  trace : list Event
}.

(** The effect of one event on the world. *)
Definition step (e : Event) (w : World) : World :=
  {| keyboardHookEnabled :=
       match e with
       | EvSetKeyboardHookEnabled b => b
       | _ => keyboardHookEnabled w
       end;
     pressed :=
       match e with
       | EvKeyDown k => pressed w ∪ {[k]}
       | EvKeyUp k => pressed w ∖ {[k]}
       | _ => pressed w
       end;
     clipboard :=
       match e with
       | EvSetHtml s => ClipHtml s
       | EvSetText s => ClipText s
       | _ => clipboard w
       end;
     clipboardBackup :=
       match e with
       | EvBackupClipboard => Some (clipboard w)
       | _ => clipboardBackup w
       end;
     timers :=
       match e with
       | EvSingleShot ms cb => timers w ++ [(ms, cb)]
       | _ => timers w
       end;
     foreground := foreground w;
     pendingFaults := pendingFaults w;
     trace := trace w ++ [e] |}.

Definition replay (evs : list Event) (w : World) : World :=
  fold_left (fun w e => step e w) evs w.

Definition popFault (w : World) : World :=
  {| keyboardHookEnabled := keyboardHookEnabled w;
     pressed := pressed w;
     clipboard := clipboard w;
     clipboardBackup := clipboardBackup w;
     timers := timers w;
     foreground := foreground w;
     pendingFaults := tail (pendingFaults w);
     trace := trace w |}.

(** ** State and exception monad *)

Inductive outcome (A : Type) :=
| Returned (a : A)
| Raised (e : exn).
Arguments Returned {A} a.
Arguments Raised {A} e.

Definition M (A : Type) : Type := World -> outcome A * World.

Definition ret {A} (a : A) : M A := fun w => (Returned a, w).

Definition bind {A B} (m : M A) (k : A -> M B) : M B := fun w =>
  match m w with
  | (Returned a, w') => k a w'
  | (Raised e, w') => (Raised e, w')
  end.

Definition throw {A} (e : exn) : M A := fun w => (Raised e, w).

(** [try { body } catch (Exception const&) { handler }]: only an
    [xmilib::Exception] enters the handler. *)
Definition tryCatchException {A} (body handler : M A) : M A := fun w =>
  match body w with
  | (Raised Exception, w') => handler w'
  | r => r
  end.

Declare Scope engine_scope.
Delimit Scope engine_scope with engine.
Notation "x <- m ;; k" := (bind m (fun x => k))
  (at level 100, m at next level, right associativity) : engine_scope.
Notation "m ;; k" := (bind m (fun _ => k))
  (at level 100, right associativity) : engine_scope.
Local Open Scope engine_scope.

(** A call that cannot fail. *)
Definition effect (e : Event) : M unit := fun w => (Returned tt, step e w).

(** A call into a collaborator that may throw: the world says whether this
    call fails, and with which kind of exception; a failed call has no
    effect. *)
Definition prim (e : Event) : M unit := fun w =>
  match pendingFaults w with
  | Some x :: _ => (Raised x, popFault w)
  | None :: _ => (Returned tt, step e (popFault w))
  | [] => (Returned tt, step e w)
  end.

(** [for (i = 0; i < n; ++i) body]. *)
Fixpoint times (n : nat) (body : M unit) : M unit :=
  match n with
  | O => ret tt
  | S n' => body ;; times n' body
  end.

(** [for (x : xs) body(x)]. *)
Fixpoint forEach {A} (xs : list A) (body : A -> M unit) : M unit :=
  match xs with
  | [] => ret tt
  | x :: xs' => body x ;; forEach xs' body
  end.

(** ** Collaborators *)

(** Win32 [GetKeyState]: the high-order bit of the returned SHORT is set,
    so the value is negative, exactly when the key is down. *)
Definition GetKeyState (key : Z) : M Z := fun w =>
  (Returned (if decide (key ∈ pressed w) then -128 else 0), w).

(** Modelled from the spec: the input-synthesis primitives of XMiLib
    ([XMiLib/SystemUtils.h]), whose source is not part of the files at hand:
    key-down, key-up, key-down-and-up, Unicode-character-down-and-up and N
    synthesized backspaces. *)
Definition synthesizeKeyDown (key : Z) : M unit := prim (EvKeyDown key).
Definition synthesizeKeyUp (key : Z) : M unit := prim (EvKeyUp key).
Definition synthesizeKeyDownAndUp (key : Z) : M unit :=
  synthesizeKeyDown key ;; synthesizeKeyUp key.
Definition synthesizeUnicodeKeyDownAndUp (c : Z) : M unit :=
  prim (EvUnicodeKeyDownAndUp c).
Definition synthesizeBackspaces (count : Z) : M unit :=
  times (Z.to_nat count) (synthesizeKeyDownAndUp VK_BACK).

(** Modelled from the spec: [InputManager::setKeyboardHookEnabled], whose
    source is not part of the files at hand. "[keyboardHookEnabled: bool],
    with [setKeyboardHookEnabled(bool) -> previous value]". *)
Definition setKeyboardHookEnabled (enabled : bool) : M bool := fun w =>
  (Returned (keyboardHookEnabled w), step (EvSetKeyboardHookEnabled enabled) w).

(** Modelled from the spec: the clipboard primitives of [ClipboardManager],
    whose source is not part of the files at hand. A backup holds the
    content the clipboard had when it was taken; the setters overwrite the
    clipboard; [QTimer::singleShot] returns at once and leaves the callback
    pending. *)
Definition backupClipboard : M unit := prim EvBackupClipboard.
Definition setHtml (html : QString) : M unit := prim (EvSetHtml html).
Definition setText (text : QString) : M unit := prim (EvSetText text).
Definition singleShot (ms : Z) (cb : Callback) : M unit :=
  prim (EvSingleShot ms cb).

(** [QThread::msleep]. *)
Definition msleep (ms : Z) : M unit := effect (EvSleep ms).

(** Qt path helpers: [QString::fromWCharArray] reads up to the terminating
    NUL, [QDir::fromNativeSeparators] turns every backslash into a slash,
    [QFileInfo::fileName] keeps what follows the last slash. *)
Fixpoint fromWCharArray (buf : list Z) : QString :=
  match buf with
  | [] => []
  | c :: rest => if c =? 0 then [] else c :: fromWCharArray rest
  end.
Definition fromNativeSeparators (s : QString) : QString :=
  map (fun c => if c =? 0x5c then 0x2f else c) s.
Definition fileName (s : QString) : QString :=
  fold_left (fun acc c => if c =? 0x2f then [] else acc ++ [c]) s [].

(** ** The engine *)

Section Engine.

(** [SensitiveApplicationManager::isSensitiveApplication]: the policy of a
    collaborator, an opaque verdict on an executable name. *)
Variable isSensitiveApplication : QString -> bool.

(** [QTextDocumentFragment::fromHtml(s).toPlainText()]. *)
Variable htmlToPlainText : QString -> QString.

(** [PreferencesManager::delayBetweenKeystrokesMs()]. *)
Variable delayBetweenKeystrokesMs : Z.

Fixpoint releaseLoop (keys result : list Z) : M (list Z) :=
  match keys with
  | [] => ret result
  | key :: keys' =>
      state <- GetKeyState key ;;
      if state <? 0
      then synthesizeKeyUp key ;; releaseLoop keys' (result ++ [key])
      else releaseLoop keys' result
  end.

Definition backupAndReleaseModifierKeys : M (list Z) :=
  releaseLoop modifierKeys [].

Definition restoreModifierKeys (keys : list Z) : M unit :=
  forEach keys synthesizeKeyDown.

Definition waitBetweenKeystrokes : M unit :=
  let delayMs := delayBetweenKeystrokesMs in
  if delayMs >? 0 then msleep delayMs else ret tt.

(** The two Win32 queries are reads of the world; the function itself
    neither throws nor changes anything. *)
Definition activeExecutableFileName (fg : Foreground) : QString :=
  if processHandle fg =? 0 then []
  else
    let ok := negb (moduleFileNameEx fg =? 0) in
    if ok
    then fileName (fromNativeSeparators (fromWCharArray (buffer fg)))
    else [].

Definition getActiveExecutableFileName : M QString := fun w =>
  (Returned (activeExecutableFileName (foreground w)), w).

Definition snippetToPlainText (snippet : QString) (isHtml : bool) : QString :=
  if negb isHtml then snippet
  else
    let plainText := htmlToPlainText snippet in
    remove kObjectReplacementChar plainText.

(** The paste branch. *)
Definition pasteSnippet (newText : QString) (isHtml : bool) : M unit :=
  backupClipboard ;;
  (if isHtml then setHtml newText else setText newText) ;;
  pressedModifiers <- backupAndReleaseModifierKeys ;;
  synthesizeKeyDown VK_LCONTROL ;;
  synthesizeKeyDownAndUp VK_V ;;
  synthesizeKeyUp VK_LCONTROL ;;
  restoreModifierKeys pressedModifiers ;;
  singleShot 1000 RestoreClipboard.

(** One turn of the typing loop. *)
Definition typeChar (c : QChar) : M unit :=
  if c =? LineFeed
  then
    pressedModifiers <- backupAndReleaseModifierKeys ;;
    synthesizeKeyDownAndUp VK_RETURN ;;
    restoreModifierKeys pressedModifiers ;;
    waitBetweenKeystrokes
  else
    pressedModifiers <- backupAndReleaseModifierKeys ;;
    synthesizeUnicodeKeyDownAndUp c ;;
    restoreModifierKeys pressedModifiers ;;
    waitBetweenKeystrokes.

(** The typing branch. *)
Definition typeSnippet (newText : QString) (isHtml : bool) : M unit :=
  let text := snippetToPlainText newText isHtml in
  forEach text typeChar.

(** Number of turns of the Left-arrow loop. *)
Definition leftCount (newText : QString) (isHtml : bool) (cursorPos : Z) : Z :=
  qMax 0
    (wrap32
       (printableCharacterCount
          (if isHtml then htmlToPlainText newText else newText)
        - cursorPos)).

Definition positionCursor (newText : QString) (isHtml : bool) (cursorPos : Z)
  : M unit :=
  if cursorPos >=? 0
  then
    pressedModifiers <- backupAndReleaseModifierKeys ;;
    times (Z.to_nat (leftCount newText isHtml cursorPos))
      (synthesizeKeyDownAndUp VK_LEFT) ;;
    restoreModifierKeys pressedModifiers
  else ret tt.

(** The body of the [try] block. *)
Definition substitutionBody (charCount : Z) (newText : QString)
    (isHtml : bool) (cursorPos : Z) : M unit :=
  synthesizeBackspaces (qMax charCount 0) ;;
  exeName <- getActiveExecutableFileName ;;
  (if negb (isSensitiveApplication exeName)
   then pasteSnippet newText isHtml
   else typeSnippet newText isHtml) ;;
  positionCursor newText isHtml cursorPos.

Definition performTextSubstitution (charCount : Z) (newText : QString)
    (isHtml : bool) (cursorPos : Z) : M unit :=
  wasKeyboardHookEnabled <- setKeyboardHookEnabled false ;;
  tryCatchException
    (substitutionBody charCount newText isHtml cursorPos)
    (setKeyboardHookEnabled wasKeyboardHookEnabled ;; throw Exception) ;;
  setKeyboardHookEnabled wasKeyboardHookEnabled ;;
  ret tt.

End Engine.

(** ** The event sequences the specification describes

    These definitions follow the words of the specification; the theorems
    below compare them with what the embedded code does. *)

(** The snapshot of a capture: the tracked modifiers that are down, in the
    order of [modifierKeys]. *)
Definition held (P : gset Z) : list Z :=
  List.filter (fun key => bool_decide (key ∈ P)) modifierKeys.

(** A burst of events between a capture/release and the matching restore. *)
Definition bracket (snapshot : list Z) (evs : list Event) : list Event :=
  map EvKeyUp snapshot ++ evs ++ map EvKeyDown snapshot.

Definition keyDownAndUp (key : Z) : list Event := [EvKeyDown key; EvKeyUp key].

Definition repeatEvents (n : nat) (evs : list Event) : list Event :=
  concat (repeat evs n).

Definition backspaceEvents (n : Z) : list Event :=
  repeatEvents (Z.to_nat n) (keyDownAndUp VK_BACK).

Definition waitEvents (delayMs : Z) : list Event :=
  if delayMs >? 0 then [EvSleep delayMs] else [].

Definition controlV : list Event :=
  [EvKeyDown VK_LCONTROL] ++ keyDownAndUp VK_V ++ [EvKeyUp VK_LCONTROL].

(** PasteStrategy. *)
Definition pasteEvents (snapshot : list Z) (newText : QString) (isHtml : bool)
  : list Event :=
  [EvBackupClipboard; if isHtml then EvSetHtml newText else EvSetText newText]
  ++ bracket snapshot controlV
  ++ [EvSingleShot 1000 RestoreClipboard].

(** TypeStrategy, one character and a whole text. *)
Definition typeCharEvents (delayMs : Z) (snapshot : list Z) (c : QChar)
  : list Event :=
  bracket snapshot
    (if c =? LineFeed then keyDownAndUp VK_RETURN else [EvUnicodeKeyDownAndUp c])
  ++ waitEvents delayMs.

Definition typeEvents (delayMs : Z) (snapshot : list Z) (text : QString)
  : list Event :=
  flat_map (typeCharEvents delayMs snapshot) text.

(** Repositioning: [n] Left-arrow presses inside one bracket. *)
Definition leftEvents (snapshot : list Z) (n : Z) : list Event :=
  bracket snapshot (repeatEvents (Z.to_nat n) (keyDownAndUp VK_LEFT)).

Definition isClipboardEvent (e : Event) : bool :=
  match e with
  | EvBackupClipboard | EvSetHtml _ | EvSetText _ | EvSingleShot _ _ => true
  | _ => false
  end.

Definition isKeyDownOf (key : Z) (e : Event) : bool :=
  match e with
  | EvKeyDown k => k =? key
  | _ => false
  end.

(** A computation that returns [a] from [w] after exactly the events [evs]. *)
Definition yields {A} (m : M A) (w : World) (a : A) (evs : list Event) : Prop :=
  m w = (Returned a, replay evs w).

(** A burst that leaves no key down that was not down before. *)
Definition quiet (evs : list Event) : Prop :=
  forall w, pressed (replay evs w) ⊆ pressed w.

(** A computation that never changes the keyboard hook flag, whatever its
    outcome. *)
Definition hookStable {A} (m : M A) : Prop :=
  forall w, keyboardHookEnabled (snd (m w)) = keyboardHookEnabled w.

(** Worlds used in examples. *)
Definition idleForeground : Foreground :=
  {| processHandle := 0x1a4; moduleFileNameEx := 23;
     buffer := [67; 58; 92; 65; 112; 112; 92; 110; 111; 116; 101; 46; 101; 120; 101; 0; 0] |}.

Definition idleWorld (hook : bool) (down : gset Z) (faults : list (option exn))
  : World :=
  {| keyboardHookEnabled := hook;
     pressed := down;
     clipboard := ClipText [111; 108; 100];
     clipboardBackup := None;
     timers := [];
     foreground := idleForeground;
     pendingFaults := faults;
     trace := [] |}.

(** A computation that returns after exactly [evs] and leaves the same
    tracked modifiers down. *)
Definition performs (m : M unit) (w : World) (evs : list Event) : Prop :=
  yields m w tt evs /\ held (pressed (replay evs w)) = held (pressed w).

(** The name [getActiveExecutableFileName] returns in a world. *)
Definition foregroundName (w : World) : QString :=
  activeExecutableFileName (foreground w).

(** The resolution of the foreground executable failed at the OS level:
    no process handle, or the module name query failed. *)
Definition foregroundUnresolved (w : World) : Prop :=
  processHandle (foreground w) = 0 \/ moduleFileNameEx (foreground w) = 0.

(** The plain-text rendering of a replacement, as the repositioning step
    computes it. *)
Definition renderedPlainText (htmlToPlainText : QString -> QString)
    (newText : QString) (isHtml : bool) : QString :=
  if isHtml then htmlToPlainText newText else newText.

(** Erasing, delivery and repositioning as the specification words them,
    for a call whose sensitivity verdict is [sensitive] and whose
    repositioning run has [lefts] presses. *)
Definition eraseEvents (charCount : Z) : list Event :=
  backspaceEvents (Z.max charCount 0).

Definition deliverEvents (sensitive : bool) (delayMs : Z) (snapshot : list Z)
    (typed newText : QString) (isHtml : bool) : list Event :=
  if sensitive then typeEvents delayMs snapshot typed
  else pasteEvents snapshot newText isHtml.

Definition repositionEvents (snapshot : list Z) (cursorPos lefts : Z)
  : list Event :=
  if cursorPos >=? 0 then leftEvents snapshot lefts else [].

Definition isLeftArrowPress (e : Event) : bool := isKeyDownOf VK_LEFT e.
Definition isBackspacePress (e : Event) : bool := isKeyDownOf VK_BACK e.
Definition isUnicodeOf (c : Z) (e : Event) : bool :=
  match e with
  | EvUnicodeKeyDownAndUp c' => c' =? c
  | _ => false
  end.

Definition clipDataOf (newText : QString) (isHtml : bool) : ClipData :=
  if isHtml then ClipHtml newText else ClipText newText.

Definition countEvents (p : Event -> bool) (evs : list Event) : Z :=
  Z.of_nat (length (List.filter p evs)).

(** Everything between the two hook calls. *)
Definition substitutionEvents (sensitive : bool) (delayMs : Z)
    (snapshot : list Z) (typed newText : QString) (isHtml : bool)
    (charCount cursorPos lefts : Z) : list Event :=
  eraseEvents charCount
  ++ deliverEvents sensitive delayMs snapshot typed newText isHtml
  ++ repositionEvents snapshot cursorPos lefts.

(** An event test that no press or release of a tracked modifier passes. *)
Definition modifierBlind (p : Event -> bool) : Prop :=
  forall key, In key modifierKeys ->
    p (EvKeyDown key) = false /\ p (EvKeyUp key) = false.

(** An event test that no event of the typing strategy passes. *)
Definition typingBlind (p : Event -> bool) : Prop :=
  modifierBlind p /\
  p (EvKeyDown VK_RETURN) = false /\ p (EvKeyUp VK_RETURN) = false /\
  (forall c, p (EvUnicodeKeyDownAndUp c) = false) /\
  (forall ms, p (EvSleep ms) = false).

(** The clipboard side of the world. *)
Definition clipboardState (w : World)
  : ClipData * option ClipData * list (Z * Callback) :=
  (clipboard w, clipboardBackup w, timers w).

(** A world whose foreground window has no process that can be opened. *)
Definition strandedWorld (hook : bool) (down : gset Z) : World :=
  {| keyboardHookEnabled := hook;
     pressed := down;
     clipboard := ClipText [111; 108; 100];
     clipboardBackup := None;
     timers := [];
     foreground := {| processHandle := 0; moduleFileNameEx := 0; buffer := [0] |};
     pendingFaults := [];
     trace := [] |}.

(** A rendering of HTML whose result holds an image placeholder between
    two letters. *)
Definition imageBetweenLetters (html : QString) : QString :=
  [0x61; kObjectReplacementChar; 0x62].

(** The events between the two hook calls of a call made in world [w]. *)
Definition callEvents (isSensitiveApplication : QString -> bool)
    (htmlToPlainText : QString -> QString) (delayBetweenKeystrokesMs : Z)
    (w : World) (charCount : Z) (newText : QString) (isHtml : bool)
    (cursorPos : Z) : list Event :=
  substitutionEvents (isSensitiveApplication (foregroundName w))
    delayBetweenKeystrokesMs (held (pressed w))
    (snippetToPlainText htmlToPlainText newText isHtml) newText isHtml
    charCount cursorPos (leftCount htmlToPlainText newText isHtml cursorPos).

(** ** Further functions of [BeeftextUtils.cpp] *)

(** A [QChar] holds 16 bits. *)
Definition isQChar (c : Z) : Prop := 0 <= c < 65536.

(** The count before clamping. *)
Definition rawCount (str : QString) : Z :=
  codePoints str - 2 * joiners str - modifiers str.

(** [isAppRunningOnWindows10OrHigher]. The regular expression
    [^(\d+)\.] matches when the string starts with a non-empty run of ASCII
    digits followed by a dot; the run is maximal because what follows it has
    to be the dot. [QString::toInt] yields 0 when the number does not fit an
    [int]. *)
Definition isDigit (c : Z) : bool := (0x30 <=? c) && (c <=? 0x39).

Fixpoint leadingDigits (s : QString) : QString :=
  match s with
  | [] => []
  | c :: rest => if isDigit c then c :: leadingDigits rest else []
  end.

Fixpoint afterDigits (s : QString) : QString :=
  match s with
  | [] => []
  | c :: rest => if isDigit c then afterDigits rest else s
  end.

(** The first capture group of the match, if the string matches. *)
Definition captured (s : QString) : option QString :=
  match leadingDigits s, afterDigits s with
  | _ :: _, c :: _ => if c =? 0x2e then Some (leadingDigits s) else None
  | _, _ => None
  end.

Definition decimalValue (digits : QString) : Z :=
  fold_left (fun acc d => 10 * acc + (d - 0x30)) digits 0.

Definition toInt (digits : QString) : Z :=
  let v := decimalValue digits in
  if v <=? 2 ^ 31 - 1 then v else 0.

Definition isAppRunningOnWindows10OrHigher (kernelVersion : QString) : bool :=
  match captured kernelVersion with
  | Some major => toInt major >=? 10
  | None => false
  end.

(** Portable mode. [QDir::absoluteFilePath] of a relative name puts one
    slash between the directory and the name unless the directory already
    ends with one. *)
Definition kPortableModeBeaconFileName : QString :=
  [80; 111; 114; 116; 97; 98; 108; 101; 46; 98; 105; 110].
Definition kPortableAppsModeBeaconFileName : QString :=
  [80; 111; 114; 116; 97; 98; 108; 101; 65; 112; 112; 115; 46; 98; 105; 110].

Definition absoluteFilePath (dir name : QString) : QString :=
  match name with
  | [] => dir
  | _ => if List.last dir 0 =? 0x2f then dir ++ name else dir ++ [0x2f] ++ name
  end.

(** What the two functions read: the application directory and which
    files exist. *)
Record Installation := {
  applicationDirPath : QString;
  fileExists : QString -> bool
}.

Definition isInPortableModeInternal (inst : Installation) : bool :=
  let appDir := applicationDirPath inst in
  fileExists inst (absoluteFilePath appDir kPortableModeBeaconFileName)
  || fileExists inst (absoluteFilePath appDir kPortableAppsModeBeaconFileName).

Definition usePortableAppsFolderLayout (inst : Installation) : bool :=
  fileExists inst
    (absoluteFilePath (applicationDirPath inst) kPortableAppsModeBeaconFileName).

(** [isInPortableMode]: the function-local [static bool result] is
    initialised by the first call and read by the later ones. The state is
    that static, [None] before the first call. *)
Definition isInPortableMode (inst : Installation) (static : option bool)
  : bool * option bool :=
  match static with
  | Some result => (result, static)
  | None => let result := isInPortableModeInternal inst in (result, Some result)
  end.

(** Successive calls, each seeing the installation as it is at that time. *)
Fixpoint isInPortableModeCalls (insts : list Installation)
    (static : option bool) : list bool :=
  match insts with
  | [] => []
  | inst :: later =>
      let (result, static') := isInPortableMode inst static in
      result :: isInPortableModeCalls later static'
  end.

(** ** Calls in which anything may fail *)

(** The world after [k] fallible calls have consumed their outcome. *)
Fixpoint dropFaults (k : nat) (w : World) : World :=
  match k with
  | O => w
  | S k' => dropFaults k' (popFault w)
  end.

(** Started in [w], the computation performs only events that satisfy [p],
    whether it returns or raises. *)
Definition emitsAt {A} (p : Event -> Prop) (m : M A) (w : World) : Prop :=
  exists evs k, snd (m w) = replay evs (dropFaults k w) /\ Forall p evs.

Definition emitsOnly {A} (p : Event -> Prop) (m : M A) : Prop :=
  forall w, emitsAt p m w.

Definition isHookEvent (e : Event) : bool :=
  match e with
  | EvSetKeyboardHookEnabled _ => true
  | _ => false
  end.

Definition isSleepEvent (e : Event) : bool :=
  match e with
  | EvSleep _ => true
  | _ => false
  end.

Definition isUnicodeEvent (e : Event) : bool :=
  match e with
  | EvUnicodeKeyDownAndUp _ => true
  | _ => false
  end.

(** The keys the engine ever presses or releases. *)
Definition engineKeys : list Z :=
  modifierKeys ++ [VK_BACK; VK_V; VK_RETURN; VK_LEFT].

(** The events the body of a call may perform, for a given delay, typed
    text and replacement. *)
Definition engineEvent (delayMs : Z) (typed newText : QString) (isHtml : bool)
    (e : Event) : Prop :=
  match e with
  | EvSetKeyboardHookEnabled _ => False
  | EvKeyDown key | EvKeyUp key => In key engineKeys
  | EvUnicodeKeyDownAndUp c => In c typed /\ c <> LineFeed
  | EvSleep ms => ms = delayMs /\ 0 < delayMs
  | EvBackupClipboard => True
  | EvSetHtml html => html = newText /\ isHtml = true
  | EvSetText text => text = newText /\ isHtml = false
  | EvSingleShot ms cb => ms = 1000 /\ cb = RestoreClipboard
  end.

(** What an event predicate has to admit for each phase of the body. *)
Definition admitsModifiers (p : Event -> Prop) : Prop :=
  forall key, In key modifierKeys -> p (EvKeyUp key) /\ p (EvKeyDown key).

Definition admitsKey (p : Event -> Prop) (key : Z) : Prop :=
  p (EvKeyDown key) /\ p (EvKeyUp key).

Definition admitsTyping (p : Event -> Prop) (delayMs : Z) (typed : QString)
  : Prop :=
  admitsKey p VK_RETURN /\
  (forall c, In c typed -> c <> LineFeed -> p (EvUnicodeKeyDownAndUp c)) /\
  (0 < delayMs -> p (EvSleep delayMs)).

Definition admitsPasting (p : Event -> Prop) (newText : QString)
    (isHtml : bool) : Prop :=
  p EvBackupClipboard /\
  p (if isHtml then EvSetHtml newText else EvSetText newText) /\
  admitsKey p VK_V /\
  p (EvSingleShot 1000 RestoreClipboard).

(** The outcome of a call read off the outcome of its body, which ran from
    [entry]: the hook is put back unless a foreign exception escapes. *)
Definition finishCall (wasKeyboardHookEnabled : bool)
    (inner : outcome unit * World) : outcome unit * World :=
  match inner with
  | (Returned _, w1) =>
      (Returned tt, step (EvSetKeyboardHookEnabled wasKeyboardHookEnabled) w1)
  | (Raised Exception, w1) =>
      (Raised Exception,
       step (EvSetKeyboardHookEnabled wasKeyboardHookEnabled) w1)
  | (Raised OtherException, w1) => (Raised OtherException, w1)
  end.

(** * Properties *)

(** ** 32-bit arithmetic *)

Lemma wrap32_small z : - 2 ^ 31 <= z < 2 ^ 31 -> wrap32 z = z.
Proof.
  intros Hz. unfold wrap32.
  rewrite Z.mod_small by lia. lia.
Qed.

Lemma wrap32_range z : - 2 ^ 31 <= wrap32 z < 2 ^ 31.
Proof.
  unfold wrap32.
  pose proof (Z.mod_pos_bound (z + 2 ^ 31) (2 ^ 32) ltac:(lia)). lia.
Qed.

Lemma qMax_max a b : qMax a b = Z.max a b.
Proof. unfold qMax. destruct (Z.ltb_spec a b); lia. Qed.

Lemma clamp_roundtrip z :
  - 2 ^ 31 <= z < 2 ^ 31 -> wrap32 (wrapU32 (qMax 0 z)) = Z.max 0 z.
Proof.
  intros Hz. rewrite qMax_max. unfold wrapU32.
  rewrite Z.mod_small by lia. apply wrap32_small. lia.
Qed.

(** ** The grapheme counter *)

Lemma countStep_range r c : - 2 ^ 31 <= r < 2 ^ 31 -> - 2 ^ 31 <= countStep r c < 2 ^ 31.
Proof.
  intros Hr. unfold countStep.
  destruct (isZeroWidthJoiner c), (isFitzpatrick c);
    auto using wrap32_range.
Qed.

Lemma fold_countStep_range l : forall r,
  - 2 ^ 31 <= r < 2 ^ 31 -> - 2 ^ 31 <= fold_left countStep l r < 2 ^ 31.
Proof.
  induction l as [|c l IH]; intros r Hr; simpl; [exact Hr|].
  apply IH, countStep_range, Hr.
Qed.

Lemma joiner_not_modifier c : isZeroWidthJoiner c = true -> isFitzpatrick c = false.
Proof.
  unfold isZeroWidthJoiner, isFitzpatrick. intros H.
  apply Z.eqb_eq in H. subst c. reflexivity.
Qed.

(** As long as the running count cannot leave the [qint32] range, the loop
    subtracts two per joiner and one per modifier. *)
Lemma fold_countStep_exact l : forall r,
  - 2 ^ 31 <= r - 2 * Z.of_nat (length l) -> r < 2 ^ 31 ->
  fold_left countStep l r =
    r - 2 * Z.of_nat (length (List.filter isZeroWidthJoiner l))
      - Z.of_nat (length (List.filter isFitzpatrick l)).
Proof.
  induction l as [|c l IH]; intros r Hlo Hhi.
  - simpl. lia.
  - cbn [fold_left List.filter]. cbn [length] in Hlo.
    unfold countStep at 2.
    destruct (isZeroWidthJoiner c) eqn:Hz.
    + rewrite (joiner_not_modifier c Hz).
      rewrite wrap32_small by lia.
      rewrite IH by lia. cbn [length]. lia.
    + destruct (isFitzpatrick c) eqn:Hf.
      * rewrite wrap32_small by lia.
        rewrite IH by lia. cbn [length]. lia.
      * rewrite IH by lia. lia.
Qed.

Lemma toUcs4_length_aux n : forall s,
  (length s <= n)%nat -> (length (toUcs4 s) <= length s)%nat.
Proof.
  induction n as [|n IH]; intros s Hn.
  - destruct s; simpl in *; lia.
  - destruct s as [|cur rest]; [simpl; lia|].
    cbn [toUcs4 length] in *.
    destruct (isSurrogate cur).
    + destruct rest as [|low rest']; [simpl; lia|].
      destruct (isHighSurrogate cur && isLowSurrogate low); cbn [length] in *.
      * specialize (IH rest' ltac:(lia)). lia.
      * specialize (IH (low :: rest') ltac:(simpl; lia)). cbn [length] in IH. lia.
    + cbn [length]. specialize (IH rest ltac:(lia)). lia.
Qed.

Lemma toUcs4_length s : (length (toUcs4 s) <= length s)%nat.
Proof. apply (toUcs4_length_aux (length s)). lia. Qed.

Lemma printableCharacterCount_nonneg str : 0 <= printableCharacterCount str.
Proof.
  unfold printableCharacterCount.
  rewrite clamp_roundtrip; [lia|].
  apply fold_countStep_range, wrap32_range.
Qed.

Lemma printableCharacterCount_formula str :
  Z.of_nat (length str) < 2 ^ 31 ->
  printableCharacterCount str =
    Z.max 0 (codePoints str - 2 * joiners str - modifiers str).
Proof.
  intros Hlen. unfold printableCharacterCount, codePoints, joiners, modifiers.
  cbv zeta. pose proof (toUcs4_length str) as Hle.
  rewrite (wrap32_small (Z.of_nat _)) by lia.
  rewrite clamp_roundtrip.
  - rewrite fold_countStep_exact by lia. reflexivity.
  - apply fold_countStep_range. lia.
Qed.

Lemma printableCharacterCount_ucs4 str ucs4 :
  toUcs4 str = ucs4 ->
  printableCharacterCount str =
    wrap32 (wrapU32 (qMax 0 (fold_left countStep ucs4 (wrap32 (Z.of_nat (length ucs4)))))).
Proof. intros <-. reflexivity. Qed.

(** C2. For every string that fits a [QString] (fewer than 2^31 units),
    [printableCharacterCount] is [max 0 (c - 2*z - f)] with [c] the number of
    code points of [toUcs4], [z] the number of U+200D and [f] the number of
    code points in U+1F3FB..U+1F3FF; the result is never negative; the empty
    string counts 0 and "A" counts 1; a string whose code points are
    emoji, ZWJ, emoji counts 1, and so does a base emoji followed by one
    Fitzpatrick modifier. The function is a total Rocq function, hence
    deterministic and defined on every sequence of code units, including
    ill-formed surrogates. *)
Theorem printableCharacterCount_spec :
  (forall str, Z.of_nat (length str) < 2 ^ 31 ->
     printableCharacterCount str =
       Z.max 0 (codePoints str - 2 * joiners str - modifiers str)) /\
  (forall str, 0 <= printableCharacterCount str) /\
  printableCharacterCount [] = 0 /\
  printableCharacterCount [0x41] = 1 /\
  (forall str a b, toUcs4 str = [a; 0x200d; b] ->
     plainCodePoint a -> plainCodePoint b ->
     printableCharacterCount str = 1) /\
  (forall str a m, toUcs4 str = [a; m] ->
     plainCodePoint a -> isFitzpatrick m = true ->
     printableCharacterCount str = 1).
Proof.
  split; [exact printableCharacterCount_formula|].
  split; [exact printableCharacterCount_nonneg|].
  split; [reflexivity|]. split; [reflexivity|]. split.
  - intros str a b Hu [Haz Haf] [Hbz Hbf].
    rewrite (printableCharacterCount_ucs4 _ _ Hu).
    cbn [fold_left length]. unfold countStep.
    rewrite Haz, Haf, Hbz, Hbf. reflexivity.
  - intros str a m Hu [Haz Haf] Hm.
    rewrite (printableCharacterCount_ucs4 _ _ Hu).
    cbn [fold_left length]. unfold countStep.
    rewrite Haz, Haf, Hm.
    destruct (isZeroWidthJoiner m) eqn:Hz.
    + apply joiner_not_modifier in Hz. congruence.
    + reflexivity.
Qed.

(** The theorem at work: a family emoji (man, ZWJ, woman), a thumbs-up with
    a light skin tone, and a lone low surrogate. *)
Lemma printableCharacterCount_spec_witness :
  printableCharacterCount [0xd83d; 0xdc68; 0x200d; 0xd83d; 0xdc69] = Z.max 0 (3 - 2 * 1 - 0) /\
  printableCharacterCount [0xd83d; 0xdc68; 0x200d; 0xd83d; 0xdc69] = 1 /\
  printableCharacterCount [0xd83d; 0xdc4d; 0xd83c; 0xdffb] = 1 /\
  0 <= printableCharacterCount [0xdc00].
Proof.
  destruct printableCharacterCount_spec as (Hf & Hn & _ & _ & Hz & Hm).
  split; [apply (Hf [0xd83d; 0xdc68; 0x200d; 0xd83d; 0xdc69]); vm_compute; reflexivity|].
  split; [apply (Hz _ 0x1f468 0x1f469); vm_compute; auto|].
  split; [apply (Hm _ 0x1f44d 0x1f3fb); vm_compute; auto|].
  apply Hn.
Defined.

(** ** Replaying events *)

Lemma replay_app evs1 evs2 w : replay (evs1 ++ evs2) w = replay evs2 (replay evs1 w).
Proof. unfold replay. apply fold_left_app. Qed.

Lemma replay_cons e evs w : replay (e :: evs) w = replay evs (step e w).
Proof. reflexivity. Qed.

Lemma replay_pendingFaults evs : forall w,
  pendingFaults (replay evs w) = pendingFaults w.
Proof.
  induction evs as [|e evs IH]; intros w; [reflexivity|].
  rewrite replay_cons, IH. reflexivity.
Qed.

Lemma replay_trace evs : forall w, trace (replay evs w) = trace w ++ evs.
Proof.
  induction evs as [|e evs IH]; intros w.
  - simpl. now rewrite app_nil_r.
  - rewrite replay_cons, IH. simpl. now rewrite <- app_assoc.
Qed.

Lemma replay_foreground evs : forall w, foreground (replay evs w) = foreground w.
Proof.
  induction evs as [|e evs IH]; intros w; [reflexivity|].
  rewrite replay_cons, IH. reflexivity.
Qed.

Lemma replay_keyUps keys : forall w,
  pressed (replay (map EvKeyUp keys) w) = pressed w ∖ list_to_set keys.
Proof.
  induction keys as [|k keys IH]; intros w.
  - simpl. set_solver.
  - cbn [map]. rewrite replay_cons, IH. simpl. set_solver.
Qed.

Lemma replay_keyDowns keys : forall w,
  pressed (replay (map EvKeyDown keys) w) = pressed w ∪ list_to_set keys.
Proof.
  induction keys as [|k keys IH]; intros w.
  - simpl. set_solver.
  - cbn [map]. rewrite replay_cons, IH. simpl. set_solver.
Qed.

(** ** Runs without failure *)

Lemma yields_ret {A} (a : A) w : yields (ret a) w a [].
Proof. reflexivity. Qed.

Lemma yields_bind {A B} (m : M A) (k : A -> M B) w a b evs1 evs2 :
  yields m w a evs1 ->
  yields (k a) (replay evs1 w) b evs2 ->
  yields (bind m k) w b (evs1 ++ evs2).
Proof.
  unfold yields, bind. intros -> ->. now rewrite replay_app.
Qed.

Lemma yields_eq {A} (m : M A) w a evs evs' :
  yields m w a evs -> evs = evs' -> yields m w a evs'.
Proof. now intros H <-. Qed.

Lemma yields_prim e w : pendingFaults w = [] -> yields (prim e) w tt [e].
Proof. unfold yields, prim. now intros ->. Qed.

Lemma yields_effect e w : yields (effect e) w tt [e].
Proof. reflexivity. Qed.

Lemma yields_keyDownAndUp key w :
  pendingFaults w = [] ->
  yields (synthesizeKeyDownAndUp key) w tt (keyDownAndUp key).
Proof.
  intros Hw. unfold synthesizeKeyDownAndUp, keyDownAndUp.
  apply (yields_bind _ _ _ tt tt [EvKeyDown key] [EvKeyUp key]).
  - now apply yields_prim.
  - apply yields_prim. now rewrite replay_pendingFaults.
Qed.

(** A loop whose body always performs the same events. *)
Lemma yields_times body evs n : forall w,
  pendingFaults w = [] ->
  (forall w', pendingFaults w' = [] -> yields body w' tt evs) ->
  yields (times n body) w tt (repeatEvents n evs).
Proof.
  intros w Hw Hbody. revert w Hw.
  induction n as [|n IH]; intros w Hw.
  - apply yields_ret.
  - cbn [times]. unfold repeatEvents. cbn [repeat concat].
    eapply yields_bind; [now apply Hbody|].
    apply IH. now rewrite replay_pendingFaults.
Qed.

Lemma yields_forEach {A} (body : A -> M unit) (evs : A -> list Event) xs :
  forall w,
  pendingFaults w = [] ->
  (forall x w', pendingFaults w' = [] -> yields (body x) w' tt (evs x)) ->
  yields (forEach xs body) w tt (flat_map evs xs).
Proof.
  intros w Hw Hbody. revert w Hw.
  induction xs as [|x xs IH]; intros w Hw.
  - apply yields_ret.
  - cbn [forEach flat_map].
    eapply yields_bind; [now apply Hbody|].
    apply IH. now rewrite replay_pendingFaults.
Qed.

(** ** The modifier key tracker *)

Lemma modifierKeys_NoDup : List.NoDup modifierKeys.
Proof.
  unfold modifierKeys.
  repeat (constructor; [simpl; intuition discriminate|]). constructor.
Qed.

Lemma held_subset P : list_to_set (held P) ⊆ P.
Proof.
  intros k Hk. apply elem_of_list_to_set, list_elem_of_In in Hk.
  unfold held in Hk. apply filter_In in Hk as [_ Hk].
  now apply bool_decide_eq_true in Hk.
Qed.

Lemma held_elem k P : k ∈ P -> In k modifierKeys -> k ∈ (list_to_set (held P) : gset Z).
Proof.
  intros HP Hk. apply elem_of_list_to_set, list_elem_of_In.
  unfold held. apply filter_In. split; [exact Hk|].
  now apply bool_decide_eq_true.
Qed.

(** The snapshot only depends on which modifiers are down. *)
Lemma held_ext P Q :
  (forall k, In k modifierKeys -> (k ∈ P <-> k ∈ Q)) -> held P = held Q.
Proof.
  intros H. unfold held. apply filter_ext_in. intros k Hk.
  apply bool_decide_ext. now apply H.
Qed.

Lemma held_none P :
  (forall k, In k modifierKeys -> k ∉ P) -> held P = [].
Proof.
  intros H. unfold held.
  induction modifierKeys as [|k l IH]; [reflexivity|].
  cbn [List.filter]. rewrite bool_decide_eq_false_2 by (apply H; now left).
  apply IH. intros k' Hk'. apply H. now right.
Qed.

Lemma yields_releaseLoop keys : forall result w,
  List.NoDup keys ->
  pendingFaults w = [] ->
  let down := List.filter (fun key => bool_decide (key ∈ pressed w)) keys in
  yields (releaseLoop keys result) w (result ++ down) (map EvKeyUp down).
Proof.
  induction keys as [|key keys IH]; intros result w Hnd Hw; cbv zeta.
  - simpl. rewrite app_nil_r. apply yields_ret.
  - inversion Hnd as [|? ? Hnotin Hnd']; subst.
    cbn [releaseLoop List.filter].
    unfold yields, bind, GetKeyState.
    destruct (decide (key ∈ pressed w)) as [Hin|Hout].
    + rewrite bool_decide_eq_true_2 by exact Hin.
      change (-128 <? 0) with true. cbv iota.
      unfold synthesizeKeyUp, prim. rewrite Hw.
      specialize (IH (result ++ [key]) (step (EvKeyUp key) w) Hnd' Hw).
      cbv zeta in IH. unfold yields in IH.
      assert (Hsame :
        List.filter (fun k => bool_decide (k ∈ pressed (step (EvKeyUp key) w))) keys =
        List.filter (fun k => bool_decide (k ∈ pressed w)) keys).
      { apply filter_ext_in. intros k Hk. apply bool_decide_ext. simpl.
        assert (k <> key) by (intros ->; contradiction). set_solver. }
      rewrite Hsame in IH. rewrite IH.
      cbn [map]. rewrite replay_cons, <- app_assoc. reflexivity.
    + rewrite bool_decide_eq_false_2 by exact Hout.
      change (0 <? 0) with false. cbv iota.
      apply (IH result w Hnd' Hw).
Qed.

Lemma yields_backupAndReleaseModifierKeys w :
  pendingFaults w = [] ->
  yields backupAndReleaseModifierKeys w
    (held (pressed w)) (map EvKeyUp (held (pressed w))).
Proof.
  intros Hw.
  apply (yields_releaseLoop modifierKeys [] w modifierKeys_NoDup Hw).
Qed.

Lemma yields_restoreModifierKeys keys w :
  pendingFaults w = [] ->
  yields (restoreModifierKeys keys) w tt (map EvKeyDown keys).
Proof.
  intros Hw. unfold restoreModifierKeys.
  eapply yields_eq.
  - apply (yields_forEach synthesizeKeyDown (fun k => [EvKeyDown k])); [exact Hw|].
    intros k w' Hw'. now apply yields_prim.
  - induction keys as [|k keys IH]; [reflexivity|].
    cbn [flat_map map]. now rewrite IH.
Qed.

(** A burst run between capture and restore. *)
Lemma yields_bracket (body : M unit) evs w :
  pendingFaults w = [] ->
  (forall w', pendingFaults w' = [] -> yields body w' tt evs) ->
  yields (pressedModifiers <- backupAndReleaseModifierKeys ;;
          body ;;
          restoreModifierKeys pressedModifiers)
    w tt (bracket (held (pressed w)) evs).
Proof.
  intros Hw Hbody. unfold bracket.
  eapply yields_bind; [now apply yields_backupAndReleaseModifierKeys|].
  eapply yields_bind; [apply Hbody; now rewrite replay_pendingFaults|].
  apply yields_restoreModifierKeys. now rewrite !replay_pendingFaults.
Qed.

(** *** Quiet bursts and the snapshot *)

Lemma quiet_nil : quiet [].
Proof. intros w. reflexivity. Qed.

Lemma quiet_app evs1 evs2 : quiet evs1 -> quiet evs2 -> quiet (evs1 ++ evs2).
Proof.
  intros H1 H2 w. rewrite replay_app.
  etransitivity; [apply H2 | apply H1].
Qed.

Lemma quiet_keyDownAndUp key : quiet (keyDownAndUp key).
Proof. intros w. simpl. set_solver. Qed.

Lemma quiet_repeatEvents n evs : quiet evs -> quiet (repeatEvents n evs).
Proof.
  intros H. unfold repeatEvents.
  induction n as [|n IH]; [apply quiet_nil|].
  cbn [repeat concat]. now apply quiet_app.
Qed.

Lemma quiet_controlV : quiet controlV.
Proof. intros w. simpl. set_solver. Qed.

Lemma quiet_unicode c : quiet [EvUnicodeKeyDownAndUp c].
Proof. intros w. reflexivity. Qed.

(** After a bracket around a quiet burst the same modifiers are down. *)
Lemma held_bracket evs w :
  quiet evs ->
  held (pressed (replay (bracket (held (pressed w)) evs) w)) = held (pressed w).
Proof.
  intros Hq. apply held_ext. intros k Hk.
  unfold bracket. rewrite !replay_app, replay_keyDowns.
  pose proof (Hq (replay (map EvKeyUp (held (pressed w))) w)) as Hsub.
  rewrite replay_keyUps in Hsub.
  pose proof (held_subset (pressed w)) as Hheld.
  split.
  - intros [Hin|Hin]%elem_of_union.
    + apply Hsub in Hin. set_solver.
    + now apply Hheld.
  - intros Hin. apply elem_of_union. right. now apply held_elem.
Qed.

Lemma held_step_other e w :
  (forall k, e <> EvKeyDown k) -> (forall k, e <> EvKeyUp k) ->
  pressed (step e w) = pressed w.
Proof. intros Hd Hu. destruct e; try reflexivity; congruence. Qed.

(** ** Phases of a substitution that does not fail *)

Lemma performs_seq (m1 m2 : M unit) w evs1 evs2 :
  performs m1 w evs1 ->
  performs m2 (replay evs1 w) evs2 ->
  performs (m1 ;; m2) w (evs1 ++ evs2).
Proof.
  intros [Hy1 Hk1] [Hy2 Hk2]. split.
  - eapply yields_bind; eassumption.
  - rewrite replay_app, Hk2, Hk1. reflexivity.
Qed.

Lemma performs_eq (m : M unit) w evs evs' :
  performs m w evs -> evs = evs' -> performs m w evs'.
Proof. now intros H <-. Qed.

Lemma performs_ret w : performs (ret tt) w [].
Proof. split; [apply yields_ret | reflexivity]. Qed.

(** A fallible call that is not a key event. *)
Lemma performs_prim e w :
  pendingFaults w = [] ->
  (forall k, e <> EvKeyDown k) -> (forall k, e <> EvKeyUp k) ->
  performs (prim e) w [e].
Proof.
  intros Hw Hd Hu. split; [now apply yields_prim|].
  change (replay [e] w) with (step e w). now rewrite held_step_other.
Qed.

Lemma performs_bracket (body : M unit) evs w :
  pendingFaults w = [] ->
  quiet evs ->
  (forall w', pendingFaults w' = [] -> yields body w' tt evs) ->
  performs (pressedModifiers <- backupAndReleaseModifierKeys ;;
            body ;;
            restoreModifierKeys pressedModifiers)
    w (bracket (held (pressed w)) evs).
Proof.
  intros Hw Hq Hbody. split.
  - now apply yields_bracket.
  - now apply held_bracket.
Qed.

Lemma not_modifier_step key w :
  ~ In key modifierKeys ->
  held (pressed (replay (keyDownAndUp key) w)) = held (pressed w).
Proof.
  intros Hkey. apply held_ext. intros k Hk. simpl.
  assert (k <> key) by (intros ->; contradiction). set_solver.
Qed.

Lemma performs_synthesizeBackspaces count w :
  pendingFaults w = [] ->
  performs (synthesizeBackspaces count) w (backspaceEvents count).
Proof.
  intros Hw. unfold synthesizeBackspaces, backspaceEvents.
  generalize (Z.to_nat count) as n. intros n. revert w Hw.
  induction n as [|n IH]; intros w Hw.
  - apply performs_ret.
  - cbn [times]. unfold repeatEvents. cbn [repeat concat].
    apply performs_seq.
    + split; [now apply yields_keyDownAndUp|].
      apply not_modifier_step. vm_compute. intuition discriminate.
    + apply IH. now rewrite replay_pendingFaults.
Qed.

Lemma performs_waitBetweenKeystrokes delayMs w :
  performs (waitBetweenKeystrokes delayMs) w (waitEvents delayMs).
Proof.
  unfold waitBetweenKeystrokes, waitEvents.
  destruct (delayMs >? 0); [|apply performs_ret].
  split; [apply yields_effect | reflexivity].
Qed.

Lemma performs_ext (m m' : M unit) w evs :
  m w = m' w -> performs m' w evs -> performs m w evs.
Proof. unfold performs, yields. now intros ->. Qed.

(** [a ;; b ;; c ;; d] read as a bracket followed by [d]. *)
Lemma bind_bracket_then (body rest : M unit) w :
  (pressedModifiers <- backupAndReleaseModifierKeys ;;
   body ;; restoreModifierKeys pressedModifiers ;; rest) w
  = ((pressedModifiers <- backupAndReleaseModifierKeys ;;
      body ;; restoreModifierKeys pressedModifiers) ;; rest) w.
Proof.
  unfold bind.
  destruct (backupAndReleaseModifierKeys w) as [[keys|e] w1]; [|reflexivity].
  destruct (body w1) as [[[]|e] w2]; [|reflexivity].
  destruct (restoreModifierKeys keys w2) as [[[]|e] w3]; reflexivity.
Qed.

Lemma performs_typeChar delayMs c w :
  pendingFaults w = [] ->
  performs (typeChar delayMs c) w (typeCharEvents delayMs (held (pressed w)) c).
Proof.
  intros Hw. unfold typeChar, typeCharEvents.
  destruct (c =? LineFeed);
    (eapply performs_ext; [apply bind_bracket_then|]).
  - apply performs_seq; [|apply performs_waitBetweenKeystrokes].
    apply performs_bracket; [exact Hw | apply quiet_keyDownAndUp |].
    intros w' Hw'. now apply yields_keyDownAndUp.
  - apply performs_seq; [|apply performs_waitBetweenKeystrokes].
    apply performs_bracket; [exact Hw | apply quiet_unicode |].
    intros w' Hw'. now apply yields_prim.
Qed.

Lemma performs_forEach_typeChar delayMs text : forall w,
  pendingFaults w = [] ->
  performs (forEach text (typeChar delayMs)) w
    (typeEvents delayMs (held (pressed w)) text).
Proof.
  induction text as [|c text IH]; intros w Hw.
  - apply performs_ret.
  - cbn [forEach]. unfold typeEvents. cbn [flat_map].
    pose proof (performs_typeChar delayMs c w Hw) as Hc.
    apply performs_seq; [exact Hc|].
    destruct Hc as [_ Hkeep].
    specialize (IH (replay (typeCharEvents delayMs (held (pressed w)) c) w)).
    rewrite Hkeep in IH. apply IH. now rewrite replay_pendingFaults.
Qed.

Lemma performs_typeSnippet htmlToPlainText delayMs newText isHtml w :
  pendingFaults w = [] ->
  performs (typeSnippet htmlToPlainText delayMs newText isHtml) w
    (typeEvents delayMs (held (pressed w))
       (snippetToPlainText htmlToPlainText newText isHtml)).
Proof. intros Hw. now apply performs_forEach_typeChar. Qed.

Lemma yields_controlV w :
  pendingFaults w = [] ->
  yields (synthesizeKeyDown VK_LCONTROL ;;
          synthesizeKeyDownAndUp VK_V ;;
          synthesizeKeyUp VK_LCONTROL) w tt controlV.
Proof.
  intros Hw. unfold controlV.
  eapply yields_bind; [now apply yields_prim|].
  eapply yields_bind;
    [apply yields_keyDownAndUp; now rewrite replay_pendingFaults|].
  apply yields_prim. now rewrite !replay_pendingFaults.
Qed.

Lemma performs_pasteSnippet newText isHtml w :
  pendingFaults w = [] ->
  performs (pasteSnippet newText isHtml) w
    (pasteEvents (held (pressed w)) newText isHtml).
Proof.
  intros Hw. unfold pasteSnippet, pasteEvents.
  change [EvBackupClipboard; if isHtml then EvSetHtml newText else EvSetText newText]
    with ([EvBackupClipboard] ++ [if isHtml then EvSetHtml newText else EvSetText newText]).
  rewrite <- app_assoc.
  apply performs_seq; [now apply performs_prim|].
  apply performs_seq.
  { destruct isHtml; apply performs_prim;
      try (now rewrite replay_pendingFaults); intros; discriminate. }
  set (w2 := replay _ (replay _ w)).
  assert (Hw2 : pendingFaults w2 = []) by (unfold w2; now rewrite !replay_pendingFaults).
  assert (Hheld : held (pressed w2) = held (pressed w)) by (destruct isHtml; reflexivity).
  cut (performs
         (pressedModifiers <- backupAndReleaseModifierKeys ;;
          synthesizeKeyDown VK_LCONTROL ;; synthesizeKeyDownAndUp VK_V ;;
          synthesizeKeyUp VK_LCONTROL ;;
          restoreModifierKeys pressedModifiers ;;
          singleShot 1000 RestoreClipboard) w2
         (bracket (held (pressed w2)) controlV ++ [EvSingleShot 1000 RestoreClipboard])).
  { now rewrite Hheld. }
  eapply performs_ext.
  { etransitivity;
      [|apply (bind_bracket_then
          (synthesizeKeyDown VK_LCONTROL ;; synthesizeKeyDownAndUp VK_V ;;
           synthesizeKeyUp VK_LCONTROL)
          (singleShot 1000 RestoreClipboard))].
    unfold bind.
    destruct (backupAndReleaseModifierKeys w2) as [[keys|e] w3]; [|reflexivity].
    destruct (synthesizeKeyDown VK_LCONTROL w3) as [[[]|e] w4]; [|reflexivity].
    destruct (synthesizeKeyDownAndUp VK_V w4) as [[[]|e] w5]; reflexivity. }
  apply performs_seq.
  - apply performs_bracket; [exact Hw2 | apply quiet_controlV |].
    intros w' Hw'. now apply yields_controlV.
  - apply performs_prim; try (intros; discriminate).
    now rewrite replay_pendingFaults.
Qed.

Lemma performs_positionCursor htmlToPlainText newText isHtml cursorPos w :
  pendingFaults w = [] ->
  performs (positionCursor htmlToPlainText newText isHtml cursorPos) w
    (repositionEvents (held (pressed w)) cursorPos
       (leftCount htmlToPlainText newText isHtml cursorPos)).
Proof.
  intros Hw. unfold positionCursor, repositionEvents, leftEvents.
  destruct (cursorPos >=? 0); [|apply performs_ret].
  apply performs_bracket; [exact Hw | |].
  - apply quiet_repeatEvents, quiet_keyDownAndUp.
  - intros w' Hw'. apply yields_times; [exact Hw'|].
    intros w'' Hw''. now apply yields_keyDownAndUp.
Qed.

Lemma getActiveExecutableFileName_pure w :
  getActiveExecutableFileName w = (Returned (foregroundName w), w).
Proof. reflexivity. Qed.

Lemma foregroundName_replay evs w : foregroundName (replay evs w) = foregroundName w.
Proof. unfold foregroundName. now rewrite replay_foreground. Qed.

Section Runs.

Variable isSensitiveApplication : QString -> bool.
Variable htmlToPlainText : QString -> QString.
Variable delayBetweenKeystrokesMs : Z.

Local Abbreviation body :=
  (substitutionBody isSensitiveApplication htmlToPlainText
     delayBetweenKeystrokesMs).
Local Abbreviation run :=
  (performTextSubstitution isSensitiveApplication htmlToPlainText
     delayBetweenKeystrokesMs).

Local Abbreviation eventsIn :=
  (callEvents isSensitiveApplication htmlToPlainText delayBetweenKeystrokesMs).

Lemma performs_substitutionBody charCount newText isHtml cursorPos w :
  pendingFaults w = [] ->
  performs (body charCount newText isHtml cursorPos) w
    (eventsIn w charCount newText isHtml cursorPos).
Proof.
  intros Hw. unfold callEvents, substitutionBody, substitutionEvents.
  apply performs_seq.
  { unfold eraseEvents. rewrite qMax_max.
    now apply performs_synthesizeBackspaces. }
  set (w1 := replay (eraseEvents charCount) w).
  assert (Hw1 : pendingFaults w1 = []) by (unfold w1; now rewrite replay_pendingFaults).
  assert (Hheld : held (pressed w1) = held (pressed w)).
  { pose proof (performs_synthesizeBackspaces (Z.max charCount 0) w Hw) as [_ H].
    exact H. }
  assert (Hname : foregroundName w1 = foregroundName w)
    by apply foregroundName_replay.
  rewrite <- Hheld, <- Hname.
  eapply performs_ext.
  { unfold bind at 1. rewrite getActiveExecutableFileName_pure. reflexivity. }
  apply performs_seq.
  - unfold deliverEvents.
    destruct (isSensitiveApplication (foregroundName w1)); cbn [negb].
    + now apply performs_typeSnippet.
    + now apply performs_pasteSnippet.
  - match goal with |- performs _ ?w2 _ => set (w2' := w2) end.
    assert (Hheld2 : held (pressed w2') = held (pressed w1)).
    { unfold w2', deliverEvents.
      destruct (isSensitiveApplication (foregroundName w1)).
      - now apply performs_typeSnippet.
      - now apply performs_pasteSnippet. }
    rewrite <- Hheld2. apply performs_positionCursor.
    unfold w2'. now rewrite replay_pendingFaults.
Qed.

Lemma yields_performTextSubstitution charCount newText isHtml cursorPos w :
  pendingFaults w = [] ->
  yields (run charCount newText isHtml cursorPos) w tt
    ([EvSetKeyboardHookEnabled false]
     ++ eventsIn w charCount newText isHtml cursorPos
     ++ [EvSetKeyboardHookEnabled (keyboardHookEnabled w)]).
Proof.
  intros Hw.
  pose proof (performs_substitutionBody charCount newText isHtml cursorPos
                (step (EvSetKeyboardHookEnabled false) w) Hw) as [Hy _].
  change (eventsIn (step (EvSetKeyboardHookEnabled false) w))
    with (eventsIn w) in Hy.
  unfold yields in *. unfold performTextSubstitution.
  unfold bind at 1. unfold setKeyboardHookEnabled at 1.
  unfold bind at 1. unfold tryCatchException.
  rewrite Hy.
  unfold bind, setKeyboardHookEnabled, ret.
  rewrite !replay_app. reflexivity.
Qed.

End Runs.

(** ** Counting events *)

Lemma countEvents_app p evs1 evs2 :
  countEvents p (evs1 ++ evs2) = countEvents p evs1 + countEvents p evs2.
Proof.
  unfold countEvents. rewrite List.filter_app, length_app. lia.
Qed.

Lemma countEvents_none p evs :
  (forall e, In e evs -> p e = false) -> countEvents p evs = 0.
Proof.
  intros H. unfold countEvents.
  induction evs as [|e evs IH]; [reflexivity|].
  cbn [List.filter]. rewrite (H e) by now left.
  apply IH. intros e' He'. apply H. now right.
Qed.

Lemma countEvents_nonneg p evs : 0 <= countEvents p evs.
Proof. unfold countEvents. lia. Qed.

Lemma countEvents_repeatEvents p n evs :
  countEvents p (repeatEvents n evs) = Z.of_nat n * countEvents p evs.
Proof.
  unfold repeatEvents. induction n as [|n IH].
  - reflexivity.
  - cbn [repeat concat]. rewrite countEvents_app, IH. lia.
Qed.

Lemma held_modifiers P key : In key (held P) -> In key modifierKeys.
Proof. unfold held. intros H. now apply filter_In in H. Qed.

Lemma countEvents_bracket p P evs :
  modifierBlind p ->
  countEvents p (bracket (held P) evs) = countEvents p evs.
Proof.
  intros Hp. unfold bracket. rewrite !countEvents_app.
  rewrite (countEvents_none p (map EvKeyUp _)), (countEvents_none p (map EvKeyDown _)).
  - lia.
  - intros e [k [<- Hk]]%in_map_iff. now apply held_modifiers, Hp in Hk.
  - intros e [k [<- Hk]]%in_map_iff. now apply held_modifiers, Hp in Hk.
Qed.

Lemma countEvents_waitEvents p delayMs :
  (forall ms, p (EvSleep ms) = false) -> countEvents p (waitEvents delayMs) = 0.
Proof.
  intros Hp. unfold waitEvents. destruct (delayMs >? 0); [|reflexivity].
  unfold countEvents. simpl. now rewrite Hp.
Qed.

Lemma countEvents_typeEvents p delayMs P text :
  typingBlind p ->
  countEvents p (typeEvents delayMs (held P) text) = 0.
Proof.
  intros (Hmod & Hrd & Hru & Huni & Hsleep). unfold typeEvents.
  induction text as [|c text IH]; [reflexivity|].
  cbn [flat_map]. rewrite countEvents_app, IH.
  unfold typeCharEvents.
  rewrite countEvents_app, countEvents_bracket, countEvents_waitEvents by assumption.
  destruct (c =? LineFeed); unfold countEvents; simpl.
  - now rewrite Hrd, Hru.
  - now rewrite Huni.
Qed.

Lemma countEvents_leftEvents p P n :
  modifierBlind p ->
  countEvents p (leftEvents (held P) n)
  = Z.of_nat (Z.to_nat n) * countEvents p (keyDownAndUp VK_LEFT).
Proof.
  intros Hp. unfold leftEvents.
  now rewrite countEvents_bracket, countEvents_repeatEvents.
Qed.

Lemma countEvents_pasteEvents p P newText isHtml :
  modifierBlind p ->
  countEvents p (pasteEvents (held P) newText isHtml)
  = countEvents p [EvBackupClipboard;
                   if isHtml then EvSetHtml newText else EvSetText newText]
    + countEvents p controlV
    + countEvents p [EvSingleShot 1000 RestoreClipboard].
Proof.
  intros Hp. unfold pasteEvents.
  rewrite !countEvents_app, countEvents_bracket by assumption. lia.
Qed.

Lemma modifierBlind_keyDownOf key :
  ~ In key modifierKeys -> modifierBlind (isKeyDownOf key).
Proof.
  intros Hkey k Hk. split; [|reflexivity].
  simpl. apply Z.eqb_neq. intros ->. contradiction.
Qed.

Lemma modifierBlind_backspace : modifierBlind isBackspacePress.
Proof.
  apply modifierBlind_keyDownOf. vm_compute. intuition discriminate.
Qed.

Lemma modifierBlind_left : modifierBlind isLeftArrowPress.
Proof.
  apply modifierBlind_keyDownOf. vm_compute. intuition discriminate.
Qed.

Lemma modifierBlind_clipboard : modifierBlind isClipboardEvent.
Proof. intros k _. split; reflexivity. Qed.

Lemma typingBlind_backspace : typingBlind isBackspacePress.
Proof.
  split; [apply modifierBlind_backspace|]. repeat split; reflexivity.
Qed.

Lemma typingBlind_left : typingBlind isLeftArrowPress.
Proof.
  split; [apply modifierBlind_left|]. repeat split; reflexivity.
Qed.

Lemma typingBlind_clipboard : typingBlind isClipboardEvent.
Proof.
  split; [apply modifierBlind_clipboard|]. repeat split; reflexivity.
Qed.

Lemma countEvents_deliver_blind p sensitive delayMs P typed newText isHtml :
  typingBlind p ->
  (forall e, isClipboardEvent e = true -> p e = false) ->
  countEvents p controlV = 0 ->
  countEvents p (deliverEvents sensitive delayMs (held P) typed newText isHtml) = 0.
Proof.
  intros Hp Hclip Hcv. unfold deliverEvents. destruct sensitive.
  - now apply countEvents_typeEvents.
  - rewrite countEvents_pasteEvents by apply Hp. rewrite Hcv.
    unfold countEvents. simpl.
    rewrite !Hclip; [reflexivity| reflexivity |now destruct isHtml| reflexivity].
Qed.

Lemma countEvents_reposition p P cursorPos n :
  modifierBlind p ->
  countEvents p (repositionEvents (held P) cursorPos n)
  = if cursorPos >=? 0
    then Z.of_nat (Z.to_nat n) * countEvents p (keyDownAndUp VK_LEFT)
    else 0.
Proof.
  intros Hp. unfold repositionEvents.
  destruct (cursorPos >=? 0); [now apply countEvents_leftEvents | reflexivity].
Qed.

(** ** The clipboard side of a replay *)

Lemma clipboardState_replay evs : forall w,
  countEvents isClipboardEvent evs = 0 ->
  clipboardState (replay evs w) = clipboardState w.
Proof.
  induction evs as [|e evs IH]; intros w Hc; [reflexivity|].
  change (e :: evs) with ([e] ++ evs) in Hc. rewrite countEvents_app in Hc.
  pose proof (countEvents_nonneg isClipboardEvent evs).
  pose proof (countEvents_nonneg isClipboardEvent [e]).
  rewrite replay_cons, IH by lia.
  destruct e; try reflexivity; unfold countEvents in *; simpl in *; lia.
Qed.

(** ** The modifier key round trip *)

(** C6. In every world where input synthesis succeeds,
    [backupAndReleaseModifierKeys] synthesizes a key-up for each of the 8
    tracked modifier keys that is down, in the order of [modifierKeys], and
    returns exactly those keys (none when no modifier is held);
    [restoreModifierKeys] synthesizes a key-down for every key of the list it
    is given, in order; a capture immediately followed by the restore of its
    snapshot leaves the set of keys reported as down unchanged. *)
Theorem modifier_round_trip (w : World) :
  pendingFaults w = [] ->
  let snapshot := held (pressed w) in
  length modifierKeys = 8%nat /\
  yields backupAndReleaseModifierKeys w snapshot (map EvKeyUp snapshot) /\
  (forall key, In key snapshot <-> In key modifierKeys /\ key ∈ pressed w) /\
  ((forall key, In key modifierKeys -> key ∉ pressed w) -> snapshot = []) /\
  (forall keys, yields (restoreModifierKeys keys) w tt (map EvKeyDown keys)) /\
  yields (keys <- backupAndReleaseModifierKeys ;; restoreModifierKeys keys)
    w tt (map EvKeyUp snapshot ++ map EvKeyDown snapshot) /\
  pressed (replay (map EvKeyUp snapshot ++ map EvKeyDown snapshot) w) = pressed w.
Proof.
  intros Hw snapshot. split; [reflexivity|].
  split; [now apply yields_backupAndReleaseModifierKeys|].
  split.
  { intros key. unfold snapshot, held. rewrite filter_In.
    now rewrite bool_decide_eq_true. }
  split; [apply held_none|].
  split; [intros keys; now apply yields_restoreModifierKeys|].
  split.
  - eapply yields_bind; [now apply yields_backupAndReleaseModifierKeys|].
    apply yields_restoreModifierKeys. now rewrite replay_pendingFaults.
  - rewrite replay_app, replay_keyDowns, replay_keyUps.
    pose proof (held_subset (pressed w)) as Hsub. fold snapshot in Hsub.
    rewrite difference_union_L. set_solver.
Qed.

(** The round trip with the left Control and the right Shift keys held
    while the letter V is also down. *)
Lemma modifier_round_trip_witness :
  let w := idleWorld true {[VK_RSHIFT; VK_V; VK_LCONTROL]} [] in
  yields (keys <- backupAndReleaseModifierKeys ;; restoreModifierKeys keys)
    w tt
    ([EvKeyUp VK_LCONTROL; EvKeyUp VK_RSHIFT]
     ++ [EvKeyDown VK_LCONTROL; EvKeyDown VK_RSHIFT]).
Proof.
  intros w.
  exact (proj1 (proj2 (proj2 (proj2 (proj2 (proj2
           (modifier_round_trip w eq_refl))))))).
Defined.

(** ** Plain text of a snippet *)

Lemma snippetToPlainText_html
    (htmlToPlainText : QString -> QString) (s : QString) :
  snippetToPlainText htmlToPlainText s true
    = remove kObjectReplacementChar (htmlToPlainText s) /\
  ~ In kObjectReplacementChar (snippetToPlainText htmlToPlainText s true).
Proof.
  split; [reflexivity|].
  unfold snippetToPlainText, remove. cbn [negb].
  intros [_ H]%filter_In. now rewrite Z.eqb_refl in H.
Qed.

(** C9. On a snippet that is not HTML, [snippetToPlainText] is the identity:
    nothing is stripped and U+FFFC stays; the HTML conversion and the removal
    of U+FFFC take place exactly on the HTML branch, whose result holds no
    U+FFFC. *)
Theorem snippetToPlainText_plain_identity
    (htmlToPlainText : QString -> QString) (s : QString) :
  snippetToPlainText htmlToPlainText s false = s /\
  snippetToPlainText htmlToPlainText [0x61; kObjectReplacementChar; 0x62] false
    = [0x61; kObjectReplacementChar; 0x62] /\
  snippetToPlainText htmlToPlainText s true
    = remove kObjectReplacementChar (htmlToPlainText s) /\
  ~ In kObjectReplacementChar (snippetToPlainText htmlToPlainText s true).
Proof.
  split; [reflexivity|]. split; [reflexivity|].
  apply snippetToPlainText_html.
Qed.

(** ** Whole calls that do not fail *)

Section Calls.

Variable isSensitiveApplication : QString -> bool.
Variable htmlToPlainText : QString -> QString.
Variable delayBetweenKeystrokesMs : Z.

Local Abbreviation run :=
  (performTextSubstitution isSensitiveApplication htmlToPlainText
     delayBetweenKeystrokesMs).

(** C7. In every call whose synthesis succeeds, the erasing step comes
    first after the hook is disabled and consists of [max charCount 0]
    backspaces; nothing else in the call presses the backspace key, so the
    call synthesizes exactly [max charCount 0] backspace presses: none for
    a negative [charCount], and [charCount] otherwise. *)
Theorem erase_backspace_count (charCount : Z) (newText : QString)
    (isHtml : bool) (cursorPos : Z) (w : World) :
  pendingFaults w = [] ->
  exists rest,
    yields (run charCount newText isHtml cursorPos) w tt
      ([EvSetKeyboardHookEnabled false]
       ++ backspaceEvents (Z.max charCount 0) ++ rest) /\
    countEvents isBackspacePress (backspaceEvents (Z.max charCount 0))
      = Z.max charCount 0 /\
    countEvents isBackspacePress rest = 0 /\
    (charCount < 0 -> backspaceEvents (Z.max charCount 0) = []) /\
    (0 <= charCount ->
     backspaceEvents (Z.max charCount 0)
     = repeatEvents (Z.to_nat charCount) [EvKeyDown VK_BACK; EvKeyUp VK_BACK]).
Proof.
  intros Hw.
  pose proof (yields_performTextSubstitution isSensitiveApplication
                htmlToPlainText delayBetweenKeystrokesMs
                charCount newText isHtml cursorPos w Hw) as Hrun.
  unfold callEvents, substitutionEvents, eraseEvents in Hrun.
  rewrite <- !app_assoc in Hrun.
  eexists. split; [exact Hrun|].
  split.
  { unfold backspaceEvents. rewrite countEvents_repeatEvents.
    change (countEvents isBackspacePress (keyDownAndUp VK_BACK)) with 1. lia. }
  split.
  { rewrite !countEvents_app.
    rewrite countEvents_deliver_blind;
      [ | apply typingBlind_backspace | now intros [] | reflexivity ].
    rewrite countEvents_reposition by apply modifierBlind_backspace.
    change (countEvents isBackspacePress (keyDownAndUp VK_LEFT)) with 0.
    destruct (cursorPos >=? 0); unfold countEvents; simpl; lia. }
  split.
  - intros Hneg. unfold backspaceEvents.
    replace (Z.max charCount 0) with 0 by lia. reflexivity.
  - intros Hpos. unfold backspaceEvents.
    replace (Z.max charCount 0) with charCount by lia. reflexivity.
Qed.

End Calls.

(** A request to erase -5 characters erases nothing; a request to erase 3
    presses backspace three times. *)
Lemma erase_backspace_count_witness :
  (exists rest,
     yields (performTextSubstitution (fun _ => false) (fun s => s) 0
               (-5) [0x68; 0x69] false (-1))
       (idleWorld true ∅ []) tt
       ([EvSetKeyboardHookEnabled false] ++ [] ++ rest) /\
     countEvents isBackspacePress rest = 0) /\
  (exists rest,
     yields (performTextSubstitution (fun _ => false) (fun s => s) 0
               3 [0x68; 0x69] false (-1))
       (idleWorld true ∅ []) tt
       ([EvSetKeyboardHookEnabled false]
        ++ [EvKeyDown VK_BACK; EvKeyUp VK_BACK; EvKeyDown VK_BACK;
            EvKeyUp VK_BACK; EvKeyDown VK_BACK; EvKeyUp VK_BACK] ++ rest) /\
     countEvents isBackspacePress rest = 0).
Proof.
  split.
  - destruct (erase_backspace_count (fun _ => false) (fun s => s) 0
                (-5) [0x68; 0x69] false (-1) (idleWorld true ∅ []) eq_refl)
      as (rest & Hrun & _ & Hrest & _).
    exists rest. split; [exact Hrun | exact Hrest].
  - destruct (erase_backspace_count (fun _ => false) (fun s => s) 0
                3 [0x68; 0x69] false (-1) (idleWorld true ∅ []) eq_refl)
      as (rest & Hrun & _ & Hrest & _).
    exists rest. split; [exact Hrun | exact Hrest].
Defined.

(** ** The two delivery strategies *)

Lemma countEvents_eraseEvents p charCount :
  p (EvKeyDown VK_BACK) = false -> p (EvKeyUp VK_BACK) = false ->
  countEvents p (eraseEvents charCount) = 0.
Proof.
  intros Hd Hu. unfold eraseEvents, backspaceEvents.
  rewrite countEvents_repeatEvents. unfold countEvents. simpl.
  rewrite Hd, Hu. simpl. lia.
Qed.

Lemma clipboardState_paste pre mid post newText (isHtml : bool) w :
  countEvents isClipboardEvent pre = 0 ->
  countEvents isClipboardEvent mid = 0 ->
  countEvents isClipboardEvent post = 0 ->
  clipboardState
    (replay (pre
             ++ ([EvBackupClipboard;
                  if isHtml then EvSetHtml newText else EvSetText newText]
                 ++ mid ++ [EvSingleShot 1000 RestoreClipboard])
             ++ post) w)
  = (clipDataOf newText isHtml, Some (clipboard w),
     timers w ++ [(1000, RestoreClipboard)]).
Proof.
  intros Hpre Hmid Hpost.
  rewrite !replay_app, (clipboardState_replay post) by exact Hpost.
  pose proof (clipboardState_replay pre w Hpre) as H1.
  set (w1 := replay pre w) in *.
  pose proof (clipboardState_replay mid
    (replay [EvBackupClipboard;
             if isHtml then EvSetHtml newText else EvSetText newText] w1) Hmid) as H2.
  unfold clipboardState in *.
  injection H1 as Hc Hb Ht. injection H2 as Hc2 Hb2 Ht2.
  cbn [replay fold_left step clipboard clipboardBackup timers].
  cbn [replay fold_left] in Hc2, Hb2, Ht2.
  rewrite Hc2, Hb2, Ht2.
  destruct isHtml; cbn; now rewrite Hc, Ht.
Qed.

Lemma countEvents_unicodeLineFeed_typeEvents delayMs P text :
  countEvents (isUnicodeOf LineFeed) (typeEvents delayMs (held P) text) = 0.
Proof.
  unfold typeEvents.
  induction text as [|c text IH]; [reflexivity|].
  cbn [flat_map]. rewrite countEvents_app, IH. unfold typeCharEvents.
  rewrite countEvents_app, countEvents_bracket, countEvents_waitEvents;
    [ | reflexivity | intros k _; split; reflexivity ].
  destruct (c =? LineFeed) eqn:Hc; unfold countEvents; simpl; [reflexivity|].
  now rewrite Hc.
Qed.

Section Strategies.

Variable isSensitiveApplication : QString -> bool.
Variable htmlToPlainText : QString -> QString.
Variable delayBetweenKeystrokesMs : Z.

Local Abbreviation run :=
  (performTextSubstitution isSensitiveApplication htmlToPlainText
     delayBetweenKeystrokesMs).

(** C4. In every call whose foreground application is not sensitive and
    whose synthesis succeeds, the paste strategy runs in this order: the
    clipboard is backed up, then overwritten with the replacement in its
    native form ([setHtml] for rich content, [setText] otherwise), then
    Control+V is synthesized inside one capture/restore bracket, then the
    restoration is handed to a 1000 ms single-shot timer. When the call
    returns the backup holds what the clipboard held before the call, the
    clipboard still holds the replacement, and the restoration is pending. *)
Theorem paste_strategy_order (charCount : Z) (newText : QString)
    (isHtml : bool) (cursorPos : Z) (w : World) :
  pendingFaults w = [] ->
  isSensitiveApplication (foregroundName w) = false ->
  let snapshot := held (pressed w) in
  let before := [EvSetKeyboardHookEnabled false] ++ eraseEvents charCount in
  let after :=
    repositionEvents snapshot cursorPos
      (leftCount htmlToPlainText newText isHtml cursorPos)
    ++ [EvSetKeyboardHookEnabled (keyboardHookEnabled w)] in
  let w' := snd (run charCount newText isHtml cursorPos w) in
  yields (run charCount newText isHtml cursorPos) w tt
    (before
     ++ ([EvBackupClipboard;
          if isHtml then EvSetHtml newText else EvSetText newText]
         ++ (map EvKeyUp snapshot
             ++ [EvKeyDown VK_LCONTROL; EvKeyDown VK_V; EvKeyUp VK_V;
                 EvKeyUp VK_LCONTROL]
             ++ map EvKeyDown snapshot)
         ++ [EvSingleShot 1000 RestoreClipboard])
     ++ after) /\
  countEvents isClipboardEvent before = 0 /\
  countEvents isClipboardEvent after = 0 /\
  clipboardBackup w' = Some (clipboard w) /\
  clipboard w' = (if isHtml then ClipHtml newText else ClipText newText) /\
  timers w' = timers w ++ [(1000, RestoreClipboard)].
Proof.
  intros Hw Hsens snapshot before after w'.
  pose proof (yields_performTextSubstitution isSensitiveApplication
                htmlToPlainText delayBetweenKeystrokesMs
                charCount newText isHtml cursorPos w Hw) as Hrun.
  unfold callEvents, substitutionEvents in Hrun.
  rewrite Hsens in Hrun. unfold deliverEvents, pasteEvents in Hrun.
  assert (Hbefore : countEvents isClipboardEvent before = 0).
  { unfold before. rewrite countEvents_app, countEvents_eraseEvents; reflexivity. }
  assert (Hafter : countEvents isClipboardEvent after = 0).
  { unfold after, snapshot.
    rewrite countEvents_app, countEvents_reposition
      by apply modifierBlind_clipboard.
    destruct (cursorPos >=? 0); unfold countEvents; simpl; lia. }
  assert (Hy : yields (run charCount newText isHtml cursorPos) w tt
    (before
     ++ ([EvBackupClipboard;
          if isHtml then EvSetHtml newText else EvSetText newText]
         ++ bracket snapshot controlV
         ++ [EvSingleShot 1000 RestoreClipboard])
     ++ after)).
  { eapply yields_eq; [exact Hrun|].
    unfold before, after. now rewrite <- !app_assoc. }
  split; [exact Hy|]. split; [exact Hbefore|]. split; [exact Hafter|].
  assert (Hmid : countEvents isClipboardEvent (bracket snapshot controlV) = 0).
  { unfold snapshot.
    now rewrite countEvents_bracket by apply modifierBlind_clipboard. }
  pose proof (clipboardState_paste before (bracket snapshot controlV) after
                newText isHtml w Hbefore Hmid Hafter) as Hstate.
  unfold w'. unfold yields in Hy. rewrite Hy. cbn [snd].
  pose proof (f_equal (fun t => fst (fst t)) Hstate) as Hc.
  pose proof (f_equal (fun t => snd (fst t)) Hstate) as Hb.
  pose proof (f_equal snd Hstate) as Ht.
  unfold clipboardState in Hc, Hb, Ht. cbn [fst snd] in Hc, Hb, Ht.
  rewrite Hc, Hb, Ht. unfold clipDataOf. now destruct isHtml.
Qed.

(** C3. In every call whose foreground application is sensitive and whose
    synthesis succeeds, the replacement is typed: the text is
    [snippetToPlainText] of the replacement (for rich content, the plain
    text of the HTML without U+FFFC); every character comes with its own
    capture/restore bracket followed by the configured delay; a line feed
    is a press and release of VK_RETURN and never a Unicode event; the
    call performs no clipboard operation and leaves the clipboard, its
    backup and the timers as they were. *)
Theorem type_strategy_trace (charCount : Z) (newText : QString)
    (isHtml : bool) (cursorPos : Z) (w : World) :
  pendingFaults w = [] ->
  isSensitiveApplication (foregroundName w) = true ->
  let snapshot := held (pressed w) in
  let typed := snippetToPlainText htmlToPlainText newText isHtml in
  let whole :=
    [EvSetKeyboardHookEnabled false]
    ++ eraseEvents charCount
    ++ flat_map
         (fun c =>
            (map EvKeyUp snapshot
             ++ (if c =? LineFeed
                 then [EvKeyDown VK_RETURN; EvKeyUp VK_RETURN]
                 else [EvUnicodeKeyDownAndUp c])
             ++ map EvKeyDown snapshot)
            ++ waitEvents delayBetweenKeystrokesMs)
         typed
    ++ repositionEvents snapshot cursorPos
         (leftCount htmlToPlainText newText isHtml cursorPos)
    ++ [EvSetKeyboardHookEnabled (keyboardHookEnabled w)] in
  yields (run charCount newText isHtml cursorPos) w tt whole /\
  (isHtml = true ->
   typed = remove kObjectReplacementChar (htmlToPlainText newText) /\
   ~ In kObjectReplacementChar typed) /\
  countEvents (isUnicodeOf LineFeed) whole = 0 /\
  countEvents isClipboardEvent whole = 0 /\
  clipboardState (snd (run charCount newText isHtml cursorPos w))
    = clipboardState w.
Proof.
  intros Hw Hsens snapshot typed whole.
  pose proof (yields_performTextSubstitution isSensitiveApplication
                htmlToPlainText delayBetweenKeystrokesMs
                charCount newText isHtml cursorPos w Hw) as Hrun.
  unfold callEvents, substitutionEvents in Hrun.
  rewrite Hsens in Hrun. unfold deliverEvents in Hrun.
  assert (Hy : yields (run charCount newText isHtml cursorPos) w tt whole).
  { eapply yields_eq; [exact Hrun|].
    unfold whole. now rewrite <- !app_assoc. }
  assert (Hclip : countEvents isClipboardEvent whole = 0).
  { unfold whole, snapshot. rewrite !countEvents_app.
    rewrite countEvents_eraseEvents by reflexivity.
    change (flat_map _ typed)
      with (typeEvents delayBetweenKeystrokesMs (held (pressed w)) typed).
    rewrite countEvents_typeEvents by apply typingBlind_clipboard.
    rewrite countEvents_reposition by apply modifierBlind_clipboard.
    destruct (cursorPos >=? 0); unfold countEvents; simpl; lia. }
  split; [exact Hy|]. split.
  { intros ->.
    pose proof (snippetToPlainText_html htmlToPlainText newText)
      as [H1 H2].
    split; [exact H1 | exact H2]. }
  split.
  { unfold whole, snapshot. rewrite !countEvents_app.
    rewrite countEvents_eraseEvents by reflexivity.
    change (flat_map _ typed)
      with (typeEvents delayBetweenKeystrokesMs (held (pressed w)) typed).
    rewrite countEvents_unicodeLineFeed_typeEvents.
    rewrite countEvents_reposition by (intros k _; split; reflexivity).
    destruct (cursorPos >=? 0); unfold countEvents; simpl; lia. }
  split; [exact Hclip|].
  unfold yields in Hy. rewrite Hy. cbn [snd].
  now apply clipboardState_replay.
Qed.

End Strategies.

(** ** Repositioning the cursor *)

Lemma printableCharacterCount_range str :
  0 <= printableCharacterCount str < 2 ^ 31.
Proof.
  split; [apply printableCharacterCount_nonneg|].
  unfold printableCharacterCount. apply wrap32_range.
Qed.

Lemma leftCount_max htmlToPlainText newText isHtml cursorPos :
  0 <= cursorPos < 2 ^ 31 ->
  leftCount htmlToPlainText newText isHtml cursorPos
  = Z.max 0 (printableCharacterCount
               (renderedPlainText htmlToPlainText newText isHtml) - cursorPos).
Proof.
  intros Hpos. unfold leftCount, renderedPlainText.
  pose proof (printableCharacterCount_range
                (if isHtml then htmlToPlainText newText else newText)).
  rewrite qMax_max, wrap32_small by lia. reflexivity.
Qed.

Lemma remove_shorter c s : In c s -> (length (remove c s) < length s)%nat.
Proof.
  unfold remove. induction s as [|x l IH]; intros Hin; [contradiction|].
  cbn [List.filter length].
  pose proof (List.filter_length_le (fun y => negb (y =? c)) l) as Hle.
  unfold QChar in *.
  destruct Hin as [->|Hin].
  - rewrite Z.eqb_refl. cbn [negb]. lia.
  - specialize (IH Hin). destruct (negb (x =? c)); cbn [length]; lia.
Qed.

Section Repositioning.

Variable isSensitiveApplication : QString -> bool.
Variable htmlToPlainText : QString -> QString.
Variable delayBetweenKeystrokesMs : Z.

Local Abbreviation run :=
  (performTextSubstitution isSensitiveApplication htmlToPlainText
     delayBetweenKeystrokesMs).

(** C5. In every call whose synthesis succeeds, with [cursorPos] a
    [qint32]: a negative [cursorPos] synthesizes no Left-arrow press; a
    non-negative one synthesizes exactly
    [max 0 (printableCharacterCount rendered - cursorPos)] of them, where
    [rendered] is the plain-text rendering of the replacement, all after
    the erasing and the delivery and inside a single capture/restore
    bracket; with a printable count of 5 and [cursorPos = 2] there are
    exactly 3. *)
Theorem reposition_left_arrows (charCount : Z) (newText : QString)
    (isHtml : bool) (cursorPos : Z) (w : World) :
  pendingFaults w = [] ->
  cursorPos < 2 ^ 31 ->
  let snapshot := held (pressed w) in
  let rendered := renderedPlainText htmlToPlainText newText isHtml in
  let lefts := Z.max 0 (printableCharacterCount rendered - cursorPos) in
  let before :=
    [EvSetKeyboardHookEnabled false]
    ++ eraseEvents charCount
    ++ deliverEvents (isSensitiveApplication (foregroundName w))
         delayBetweenKeystrokesMs snapshot
         (snippetToPlainText htmlToPlainText newText isHtml) newText isHtml in
  let reposition :=
    if cursorPos >=? 0
    then map EvKeyUp snapshot
         ++ repeatEvents (Z.to_nat lefts) [EvKeyDown VK_LEFT; EvKeyUp VK_LEFT]
         ++ map EvKeyDown snapshot
    else [] in
  let whole :=
    before ++ reposition
    ++ [EvSetKeyboardHookEnabled (keyboardHookEnabled w)] in
  yields (run charCount newText isHtml cursorPos) w tt whole /\
  countEvents isLeftArrowPress before = 0 /\
  (cursorPos < 0 -> reposition = [] /\ countEvents isLeftArrowPress whole = 0) /\
  (0 <= cursorPos -> countEvents isLeftArrowPress whole = lefts) /\
  (cursorPos = 2 -> printableCharacterCount rendered = 5 ->
   countEvents isLeftArrowPress whole = 3).
Proof.
  intros Hw Hhi snapshot rendered lefts before reposition whole.
  pose proof (yields_performTextSubstitution isSensitiveApplication
                htmlToPlainText delayBetweenKeystrokesMs
                charCount newText isHtml cursorPos w Hw) as Hrun.
  unfold callEvents, substitutionEvents in Hrun.
  assert (Hrep : repositionEvents snapshot cursorPos
                   (leftCount htmlToPlainText newText isHtml cursorPos)
                 = reposition).
  { unfold repositionEvents, reposition.
    destruct (Z.geb_spec cursorPos 0) as [Hge|Hlt]; [|reflexivity].
    rewrite leftCount_max by lia. reflexivity. }
  assert (Hy : yields (run charCount newText isHtml cursorPos) w tt whole).
  { eapply yields_eq; [exact Hrun|].
    unfold whole, before. fold snapshot. rewrite Hrep.
    now rewrite <- !app_assoc. }
  assert (Hbefore : countEvents isLeftArrowPress before = 0).
  { unfold before, snapshot. rewrite !countEvents_app.
    rewrite countEvents_eraseEvents by reflexivity.
    rewrite countEvents_deliver_blind;
      [ reflexivity | apply typingBlind_left | now intros [] | reflexivity ]. }
  assert (Hcount : countEvents isLeftArrowPress whole
                   = if cursorPos >=? 0 then lefts else 0).
  { unfold whole. rewrite !countEvents_app, Hbefore.
    rewrite <- Hrep. unfold snapshot.
    rewrite countEvents_reposition by apply modifierBlind_left.
    change (countEvents isLeftArrowPress (keyDownAndUp VK_LEFT)) with 1.
    change (countEvents isLeftArrowPress
              [EvSetKeyboardHookEnabled (keyboardHookEnabled w)]) with 0.
    destruct (Z.geb_spec cursorPos 0) as [Hge|Hlt]; [|lia].
    rewrite leftCount_max by lia. fold rendered. fold lefts. lia. }
  split; [exact Hy|]. split; [exact Hbefore|]. split.
  { intros Hneg. unfold reposition in *.
    destruct (Z.geb_spec cursorPos 0); [lia|]. now split. }
  split.
  { intros Hpos. rewrite Hcount. destruct (Z.geb_spec cursorPos 0); [reflexivity|lia]. }
  intros -> H5. rewrite Hcount. unfold lefts. rewrite H5. reflexivity.
Qed.

(** C10. For a rich replacement delivered to a sensitive application with
    a cursor offset, the characters typed are those of the HTML rendered
    to plain text with U+FFFC removed, whereas the number of Left-arrow
    presses is computed from the rendering with U+FFFC still in it; when
    the rendering holds an image placeholder the latter string is strictly
    longer than what was typed. *)
Theorem reposition_counts_object_replacement (charCount : Z)
    (newText : QString) (cursorPos : Z) (w : World) :
  pendingFaults w = [] ->
  isSensitiveApplication (foregroundName w) = true ->
  0 <= cursorPos < 2 ^ 31 ->
  In kObjectReplacementChar (htmlToPlainText newText) ->
  let snapshot := held (pressed w) in
  let rendered := htmlToPlainText newText in
  let typed := remove kObjectReplacementChar rendered in
  yields (run charCount newText true cursorPos) w tt
    ([EvSetKeyboardHookEnabled false]
     ++ eraseEvents charCount
     ++ typeEvents delayBetweenKeystrokesMs snapshot typed
     ++ leftEvents snapshot
          (Z.max 0 (printableCharacterCount rendered - cursorPos))
     ++ [EvSetKeyboardHookEnabled (keyboardHookEnabled w)]) /\
  (length typed < length rendered)%nat /\
  typed <> rendered.
Proof.
  intros Hw Hsens Hpos Himg snapshot rendered typed.
  pose proof (yields_performTextSubstitution isSensitiveApplication
                htmlToPlainText delayBetweenKeystrokesMs
                charCount newText true cursorPos w Hw) as Hrun.
  unfold callEvents, substitutionEvents in Hrun.
  rewrite Hsens in Hrun. unfold deliverEvents, repositionEvents in Hrun.
  destruct (Z.geb_spec cursorPos 0) as [_|Hlt]; [|lia].
  rewrite leftCount_max in Hrun by lia.
  assert (Hlen : (length typed < length rendered)%nat)
    by now apply remove_shorter.
  split; [|split; [exact Hlen|]].
  - eapply yields_eq; [exact Hrun|]. now rewrite <- !app_assoc.
  - intros Heq. rewrite Heq in Hlen. lia.
Qed.

End Repositioning.

(** ** The keyboard hook, whatever fails *)

Lemma hookStable_ret {A} (a : A) : hookStable (ret a).
Proof. intros w. reflexivity. Qed.

Lemma hookStable_bind {A B} (m : M A) (k : A -> M B) :
  hookStable m -> (forall a, hookStable (k a)) -> hookStable (bind m k).
Proof.
  intros Hm Hk w. unfold bind.
  specialize (Hm w). destruct (m w) as [[a|e] w1]; cbn [snd] in *.
  - now rewrite Hk.
  - exact Hm.
Qed.

Lemma hookStable_prim e :
  (forall b, e <> EvSetKeyboardHookEnabled b) -> hookStable (prim e).
Proof.
  intros He w. unfold prim.
  destruct (pendingFaults w) as [|[x|] faults]; cbn [snd];
    try reflexivity; destruct e; try reflexivity; now elim (He enabled).
Qed.

Lemma hookStable_effect e :
  (forall b, e <> EvSetKeyboardHookEnabled b) -> hookStable (effect e).
Proof.
  intros He w. unfold effect. cbn [snd].
  destruct e; try reflexivity; now elim (He enabled).
Qed.

Lemma hookStable_times n body : hookStable body -> hookStable (times n body).
Proof.
  intros Hb. induction n as [|n IH]; [apply hookStable_ret|].
  cbn [times]. now apply hookStable_bind.
Qed.

Lemma hookStable_forEach {A} (xs : list A) body :
  (forall x, hookStable (body x)) -> hookStable (forEach xs body).
Proof.
  intros Hb. induction xs as [|x xs IH]; [apply hookStable_ret|].
  cbn [forEach]. apply hookStable_bind; [apply Hb | now intros _].
Qed.

Create HintDb hook.
#[local] Hint Resolve hookStable_ret hookStable_times hookStable_forEach : hook.
#[local] Hint Extern 1 (hookStable (prim _)) =>
  apply hookStable_prim; intros; discriminate : hook.
#[local] Hint Extern 1 (hookStable (effect _)) =>
  apply hookStable_effect; intros; discriminate : hook.
#[local] Hint Extern 2 (hookStable (bind _ _)) =>
  apply hookStable_bind; [|intros] : hook.

Lemma hookStable_synthesizeKeyDownAndUp key :
  hookStable (synthesizeKeyDownAndUp key).
Proof.
  unfold synthesizeKeyDownAndUp, synthesizeKeyDown, synthesizeKeyUp.
  auto with hook.
Qed.

Lemma hookStable_releaseLoop keys : forall result,
  hookStable (releaseLoop keys result).
Proof.
  induction keys as [|key keys IH]; intros result; cbn [releaseLoop].
  - apply hookStable_ret.
  - apply hookStable_bind; [intros w; reflexivity|].
    intros state. destruct (state <? 0); [|apply IH].
    unfold synthesizeKeyUp. apply hookStable_bind; [auto with hook|].
    intros _. apply IH.
Qed.

Lemma hookStable_restoreModifierKeys keys : hookStable (restoreModifierKeys keys).
Proof.
  unfold restoreModifierKeys. apply hookStable_forEach.
  intros key. unfold synthesizeKeyDown. auto with hook.
Qed.

#[local] Hint Resolve hookStable_synthesizeKeyDownAndUp hookStable_releaseLoop
  hookStable_restoreModifierKeys : hook.

Lemma hookStable_substitutionBody isSensitiveApplication htmlToPlainText
    delayBetweenKeystrokesMs charCount newText isHtml cursorPos :
  hookStable (substitutionBody isSensitiveApplication htmlToPlainText
                delayBetweenKeystrokesMs charCount newText isHtml cursorPos).
Proof.
  unfold substitutionBody.
  apply hookStable_bind; [unfold synthesizeBackspaces; auto with hook|].
  intros _. apply hookStable_bind; [intros w; reflexivity|].
  intros exeName. apply hookStable_bind.
  - destruct (negb (isSensitiveApplication exeName)).
    + unfold pasteSnippet, backupClipboard, setHtml, setText,
        backupAndReleaseModifierKeys, synthesizeKeyDown, synthesizeKeyUp,
        singleShot.
      destruct isHtml; auto 20 with hook.
    + unfold typeSnippet. apply hookStable_forEach. intros c.
      unfold typeChar, waitBetweenKeystrokes, msleep,
        backupAndReleaseModifierKeys, synthesizeUnicodeKeyDownAndUp.
      destruct (c =? LineFeed), (delayBetweenKeystrokesMs >? 0);
        auto 20 with hook.
  - intros _. unfold positionCursor, backupAndReleaseModifierKeys.
    destruct (cursorPos >=? 0); auto 20 with hook.
Qed.

Section Hook.

Variable isSensitiveApplication : QString -> bool.
Variable htmlToPlainText : QString -> QString.
Variable delayBetweenKeystrokesMs : Z.

Local Abbreviation body :=
  (substitutionBody isSensitiveApplication htmlToPlainText
     delayBetweenKeystrokesMs).
Local Abbreviation run :=
  (performTextSubstitution isSensitiveApplication htmlToPlainText
     delayBetweenKeystrokesMs).

(** C1, as the code has it. Every call disables the hook at entry and
    keeps it disabled while the body runs. When the call returns normally
    or raises an [xmilib::Exception], the hook is put back to the state it
    had before the call, whichever step failed. An exception of any other
    type is not caught: it leaves the call with the hook disabled. *)
Theorem hook_restored_unless_foreign_exception (charCount : Z)
    (newText : QString) (isHtml : bool) (cursorPos : Z) (w : World) :
  let entry := step (EvSetKeyboardHookEnabled false) w in
  let inner := body charCount newText isHtml cursorPos entry in
  let r := run charCount newText isHtml cursorPos w in
  keyboardHookEnabled entry = false /\
  keyboardHookEnabled (snd inner) = false /\
  fst r = match fst inner with
          | Returned _ => Returned tt
          | Raised e => Raised e
          end /\
  (fst r <> Raised OtherException ->
   keyboardHookEnabled (snd r) = keyboardHookEnabled w) /\
  (fst r = Raised OtherException -> keyboardHookEnabled (snd r) = false).
Proof.
  intros entry inner r.
  pose proof (hookStable_substitutionBody isSensitiveApplication
                htmlToPlainText delayBetweenKeystrokesMs
                charCount newText isHtml cursorPos entry) as Hin.
  fold inner in Hin. change (keyboardHookEnabled entry) with false in Hin.
  split; [reflexivity|]. split; [exact Hin|].
  assert (Hr : r = match inner with
                   | (Returned _, w1) =>
                       (Returned tt,
                        step (EvSetKeyboardHookEnabled (keyboardHookEnabled w)) w1)
                   | (Raised Exception, w1) =>
                       (Raised Exception,
                        step (EvSetKeyboardHookEnabled (keyboardHookEnabled w)) w1)
                   | (Raised OtherException, w1) => (Raised OtherException, w1)
                   end).
  { unfold r, performTextSubstitution.
    unfold bind at 1. unfold setKeyboardHookEnabled at 1.
    unfold bind at 1. unfold tryCatchException.
    fold entry. fold inner.
    destruct inner as [[[]|[]] w1]; reflexivity. }
  rewrite Hr. destruct inner as [[[]|[]] w1]; cbn [fst snd] in *.
  - split; [reflexivity|]. split; [reflexivity | discriminate].
  - split; [reflexivity|]. split; [reflexivity | discriminate].
  - split; [reflexivity|]. split; [congruence | now intros _].
Qed.

(** C8, as the code has it. When the foreground executable cannot be
    resolved, [getActiveExecutableFileName] returns the null string without
    raising and without touching the world; the call goes on, and the null
    string is what the sensitivity check is asked about: the paste strategy
    runs when the verdict on it is "not sensitive", the typing strategy
    when it is "sensitive". *)
Theorem unresolved_foreground_forwarded (charCount : Z) (newText : QString)
    (isHtml : bool) (cursorPos : Z) (w : World) :
  foregroundUnresolved w ->
  let snapshot := held (pressed w) in
  let typed := snippetToPlainText htmlToPlainText newText isHtml in
  let lefts := leftCount htmlToPlainText newText isHtml cursorPos in
  getActiveExecutableFileName w = (Returned [], w) /\
  (pendingFaults w = [] ->
   yields (run charCount newText isHtml cursorPos) w tt
     ([EvSetKeyboardHookEnabled false]
      ++ (eraseEvents charCount
          ++ (if isSensitiveApplication []
              then typeEvents delayBetweenKeystrokesMs snapshot typed
              else pasteEvents snapshot newText isHtml)
          ++ repositionEvents snapshot cursorPos lefts)
      ++ [EvSetKeyboardHookEnabled (keyboardHookEnabled w)])).
Proof.
  intros Hun snapshot typed lefts.
  assert (Hname : foregroundName w = []).
  { unfold foregroundName, activeExecutableFileName.
    destruct Hun as [-> | ->]; [reflexivity|].
    now destruct (processHandle (foreground w) =? 0). }
  split.
  - rewrite getActiveExecutableFileName_pure. now rewrite Hname.
  - intros Hw.
    pose proof (yields_performTextSubstitution isSensitiveApplication
                  htmlToPlainText delayBetweenKeystrokesMs
                  charCount newText isHtml cursorPos w Hw) as Hrun.
    unfold callEvents in Hrun. rewrite Hname in Hrun. exact Hrun.
Qed.

End Hook.

(** ** The theorems at work *)

(** A call in which the second backspace raises an [xmilib::Exception]: the
    exception reaches the caller and the hook is enabled again. *)
Lemma hook_restored_unless_foreign_exception_witness :
  let w := idleWorld true ∅ [None; None; Some Exception] in
  let r := performTextSubstitution (fun _ => false) (fun s => s) 0
             3 [0x68; 0x69] false (-1) w in
  fst r = Raised Exception /\ keyboardHookEnabled (snd r) = true.
Proof.
  intros w r.
  destruct (hook_restored_unless_foreign_exception (fun _ => false)
              (fun s => s) 0 3 [0x68; 0x69] false (-1) w)
    as (_ & _ & _ & Hrestore & _).
  split; [vm_compute; reflexivity|].
  apply Hrestore. vm_compute. discriminate.
Defined.

(** C1 as stated does not hold: when the first backspace raises an exception
    that is not an [xmilib::Exception], the call ends with the hook disabled
    although it was enabled before. *)
Lemma hook_left_disabled_counterexample :
  ~ (forall (isSensitiveApplication : QString -> bool)
            (htmlToPlainText : QString -> QString)
            (delayBetweenKeystrokesMs charCount : Z) (newText : QString)
            (isHtml : bool) (cursorPos : Z) (w : World),
       keyboardHookEnabled
         (snd (performTextSubstitution isSensitiveApplication htmlToPlainText
                 delayBetweenKeystrokesMs charCount newText isHtml cursorPos w))
       = keyboardHookEnabled w).
Proof.
  intros H.
  specialize (H (fun _ => false) (fun s => s) 0 3 [0x68; 0x69] false (-1)
                (idleWorld true ∅ [Some OtherException])).
  vm_compute in H. discriminate.
Qed.

(** With a policy under which the null name is not sensitive the paste
    strategy runs; here Shift is held and "hi" replaces nothing. *)
Lemma unresolved_foreground_forwarded_witness :
  let w := strandedWorld true {[VK_LSHIFT]} in
  getActiveExecutableFileName w = (Returned [], w) /\
  yields (performTextSubstitution (fun _ => false) (fun s => s) 0
            0 [0x68; 0x69] false (-1)) w tt
    [EvSetKeyboardHookEnabled false;
     EvBackupClipboard; EvSetText [0x68; 0x69];
     EvKeyUp VK_LSHIFT;
     EvKeyDown VK_LCONTROL; EvKeyDown VK_V; EvKeyUp VK_V; EvKeyUp VK_LCONTROL;
     EvKeyDown VK_LSHIFT;
     EvSingleShot 1000 RestoreClipboard;
     EvSetKeyboardHookEnabled true].
Proof.
  intros w.
  destruct (unresolved_foreground_forwarded (fun _ => false) (fun s => s) 0
              0 [0x68; 0x69] false (-1) w (or_introl eq_refl))
    as [Hname Hrun].
  split; [exact Hname | exact (Hrun eq_refl)].
Defined.

(** C8 as stated does not hold: under a policy that flags every name, the
    null name included, an unresolved foreground leads to the typing
    strategy, not to the paste strategy. *)
Lemma unresolved_foreground_typed_counterexample :
  ~ (forall (isSensitiveApplication : QString -> bool)
            (htmlToPlainText : QString -> QString)
            (delayBetweenKeystrokesMs charCount : Z) (newText : QString)
            (isHtml : bool) (cursorPos : Z) (w : World),
       foregroundUnresolved w ->
       pendingFaults w = [] ->
       yields (performTextSubstitution isSensitiveApplication htmlToPlainText
                 delayBetweenKeystrokesMs charCount newText isHtml cursorPos)
         w tt
         ([EvSetKeyboardHookEnabled false]
          ++ (eraseEvents charCount
              ++ pasteEvents (held (pressed w)) newText isHtml
              ++ repositionEvents (held (pressed w)) cursorPos
                   (leftCount htmlToPlainText newText isHtml cursorPos))
          ++ [EvSetKeyboardHookEnabled (keyboardHookEnabled w)])).
Proof.
  intros H.
  specialize (H (fun _ => true) (fun s => s) 0 0 [0x68; 0x69] false (-1)
                (strandedWorld true ∅) (or_introl eq_refl) eq_refl).
  unfold yields in H.
  apply (f_equal (fun r => trace (snd r))) in H.
  vm_compute in H. discriminate.
Qed.

(** A sensitive application, the rich replacement rendered as
    "a", image, line feed, "b", Shift held, a 5 ms delay. *)
Lemma type_strategy_trace_witness :
  yields (performTextSubstitution (fun _ => true)
            (fun _ => [0x61; kObjectReplacementChar; LineFeed; 0x62]) 5
            0 [0x3c; 0x62; 0x3e] true (-1))
    (idleWorld true {[VK_LSHIFT]} []) tt
    [EvSetKeyboardHookEnabled false;
     EvKeyUp VK_LSHIFT; EvUnicodeKeyDownAndUp 0x61; EvKeyDown VK_LSHIFT; EvSleep 5;
     EvKeyUp VK_LSHIFT; EvKeyDown VK_RETURN; EvKeyUp VK_RETURN; EvKeyDown VK_LSHIFT;
     EvSleep 5;
     EvKeyUp VK_LSHIFT; EvUnicodeKeyDownAndUp 0x62; EvKeyDown VK_LSHIFT; EvSleep 5;
     EvSetKeyboardHookEnabled true].
Proof.
  exact (proj1 (type_strategy_trace (fun _ => true)
                  (fun _ => [0x61; kObjectReplacementChar; LineFeed; 0x62]) 5
                  0 [0x3c; 0x62; 0x3e] true (-1)
                  (idleWorld true {[VK_LSHIFT]} []) eq_refl eq_refl)).
Defined.

(** The scenario of the specification: "hello" replaces three characters in
    an application that is not sensitive. *)
Lemma paste_strategy_order_witness :
  let w := idleWorld true ∅ [] in
  let run := performTextSubstitution (fun _ => false) (fun s => s) 0
               3 [0x68; 0x65; 0x6c; 0x6c; 0x6f] false (-1) in
  yields run w tt
    [EvSetKeyboardHookEnabled false;
     EvKeyDown VK_BACK; EvKeyUp VK_BACK; EvKeyDown VK_BACK; EvKeyUp VK_BACK;
     EvKeyDown VK_BACK; EvKeyUp VK_BACK;
     EvBackupClipboard; EvSetText [0x68; 0x65; 0x6c; 0x6c; 0x6f];
     EvKeyDown VK_LCONTROL; EvKeyDown VK_V; EvKeyUp VK_V; EvKeyUp VK_LCONTROL;
     EvSingleShot 1000 RestoreClipboard;
     EvSetKeyboardHookEnabled true] /\
  clipboardBackup (snd (run w)) = Some (ClipText [111; 108; 100]) /\
  timers (snd (run w)) = [(1000, RestoreClipboard)].
Proof.
  intros w run.
  destruct (paste_strategy_order (fun _ => false) (fun s => s) 0
              3 [0x68; 0x65; 0x6c; 0x6c; 0x6f] false (-1) w eq_refl eq_refl)
    as (Hrun & _ & _ & Hbackup & _ & Htimers).
  split; [exact Hrun|]. split; [exact Hbackup | exact Htimers].
Defined.

(** Cursor offset 2 in "hello", whose printable count is 5: three Left-arrow
    presses after the paste. *)
Lemma reposition_left_arrows_witness :
  let whole :=
    [EvSetKeyboardHookEnabled false;
     EvBackupClipboard; EvSetText [0x68; 0x65; 0x6c; 0x6c; 0x6f];
     EvKeyDown VK_LCONTROL; EvKeyDown VK_V; EvKeyUp VK_V; EvKeyUp VK_LCONTROL;
     EvSingleShot 1000 RestoreClipboard;
     EvKeyDown VK_LEFT; EvKeyUp VK_LEFT; EvKeyDown VK_LEFT; EvKeyUp VK_LEFT;
     EvKeyDown VK_LEFT; EvKeyUp VK_LEFT;
     EvSetKeyboardHookEnabled true] in
  yields (performTextSubstitution (fun _ => false) (fun s => s) 0
            0 [0x68; 0x65; 0x6c; 0x6c; 0x6f] false 2)
    (idleWorld true ∅ []) tt whole /\
  countEvents isLeftArrowPress whole = 3.
Proof.
  intros whole.
  destruct (reposition_left_arrows (fun _ => false) (fun s => s) 0
              0 [0x68; 0x65; 0x6c; 0x6c; 0x6f] false 2 (idleWorld true ∅ [])
              eq_refl eq_refl)
    as (Hrun & _ & _ & _ & H3).
  split; [exact Hrun | exact (H3 eq_refl eq_refl)].
Defined.

(** A rich replacement whose rendering is "a", image, "b", typed into a
    sensitive application with the cursor asked at offset 0: two characters
    are typed and three Left-arrow presses follow. *)
Lemma reposition_counts_object_replacement_witness :
  yields (performTextSubstitution (fun _ => true) imageBetweenLetters 0
            0 [0x3c; 0x69; 0x3e] true 0)
    (idleWorld true ∅ []) tt
    [EvSetKeyboardHookEnabled false;
     EvUnicodeKeyDownAndUp 0x61; EvUnicodeKeyDownAndUp 0x62;
     EvKeyDown VK_LEFT; EvKeyUp VK_LEFT; EvKeyDown VK_LEFT; EvKeyUp VK_LEFT;
     EvKeyDown VK_LEFT; EvKeyUp VK_LEFT;
     EvSetKeyboardHookEnabled true] /\
  Nat.lt
    (length (remove kObjectReplacementChar (imageBetweenLetters [0x3c; 0x69; 0x3e])))
    (length (imageBetweenLetters [0x3c; 0x69; 0x3e])).
Proof.
  destruct (reposition_counts_object_replacement (fun _ => true)
              imageBetweenLetters 0 0 [0x3c; 0x69; 0x3e] 0
              (idleWorld true ∅ []) eq_refl eq_refl
              (conj (Z.le_refl 0) eq_refl) (or_intror (or_introl eq_refl)))
    as (Hrun & Hlen & _).
  split; [exact Hrun | exact Hlen].
Defined.

(** ** More on the grapheme counter *)

Lemma filter_length_le_Z (p : Z -> bool) l :
  Z.of_nat (length (List.filter p l)) <= Z.of_nat (length l).
Proof. pose proof (List.filter_length_le p l). lia. Qed.

Lemma printableCharacterCount_raw str :
  Z.of_nat (length str) < 2 ^ 31 ->
  printableCharacterCount str = Z.max 0 (rawCount str).
Proof. apply printableCharacterCount_formula. Qed.

(** X1. The estimate never exceeds the number of code points, which never
    exceeds the number of UTF-16 units. *)
Theorem printableCharacterCount_le_length (str : QString) :
  Z.of_nat (length str) < 2 ^ 31 ->
  printableCharacterCount str <= codePoints str <= Z.of_nat (length str).
Proof.
  intros Hlen. rewrite printableCharacterCount_raw by exact Hlen.
  unfold rawCount, codePoints, joiners, modifiers.
  pose proof (toUcs4_length str).
  pose proof (filter_length_le_Z isZeroWidthJoiner (toUcs4 str)).
  pose proof (filter_length_le_Z isFitzpatrick (toUcs4 str)).
  lia.
Qed.

Lemma printableCharacterCount_le_length_witness :
  printableCharacterCount [0xd83d; 0xdc4d; 0xd83c; 0xdffb] <= 2 <= 4.
Proof.
  exact (printableCharacterCount_le_length [0xd83d; 0xdc4d; 0xd83c; 0xdffb]
           eq_refl).
Defined.

Lemma toUcs4_no_surrogate str :
  Forall (fun c => isSurrogate c = false) str -> toUcs4 str = str.
Proof.
  induction 1 as [|c l Hc _ IH]; [reflexivity|].
  cbn [toUcs4]. now rewrite Hc, IH.
Qed.

Lemma filter_none {A} (p : A -> bool) l :
  Forall (fun x => p x = false) l -> List.filter p l = [].
Proof.
  induction 1 as [|x l Hx _ IH]; [reflexivity|].
  cbn [List.filter]. now rewrite Hx.
Qed.

Lemma isQChar_not_modifier c : isQChar c -> isFitzpatrick c = false.
Proof.
  unfold isQChar, isFitzpatrick. intros Hc.
  apply andb_false_iff. left. rewrite Z.geb_leb. apply Z.leb_gt. lia.
Qed.

(** X2. On text without surrogates and without joiners, that is on ordinary
    text of the Basic Multilingual Plane, the estimate is the length. *)
Theorem printableCharacterCount_plain_text (str : QString) :
  Z.of_nat (length str) < 2 ^ 31 ->
  Forall (fun c => isQChar c /\ isSurrogate c = false /\ c <> 0x200d) str ->
  printableCharacterCount str = Z.of_nat (length str).
Proof.
  intros Hlen Hplain.
  rewrite printableCharacterCount_raw by exact Hlen.
  unfold rawCount, codePoints, joiners, modifiers.
  rewrite toUcs4_no_surrogate
    by (eapply List.Forall_impl; [|exact Hplain]; now intros c (_ & H & _)).
  rewrite (filter_none isZeroWidthJoiner), (filter_none isFitzpatrick).
  - cbn [length]. unfold QString, QChar in *. lia.
  - eapply List.Forall_impl; [|exact Hplain].
    intros c (H & _ & _). now apply isQChar_not_modifier.
  - eapply List.Forall_impl; [|exact Hplain].
    intros c (_ & _ & H). now apply Z.eqb_neq.
Qed.

Lemma printableCharacterCount_plain_text_witness :
  printableCharacterCount [0x68; 0x65; 0x6c; 0x6c; 0x6f] = 5.
Proof.
  apply (printableCharacterCount_plain_text [0x68; 0x65; 0x6c; 0x6c; 0x6f]).
  - reflexivity.
  - repeat constructor; unfold isQChar; try lia; discriminate.
Defined.

(** Decoding splits at any unit that is not a low surrogate. *)
Lemma toUcs4_app_boundary_aux n : forall a x b,
  (length a <= n)%nat ->
  isLowSurrogate x = false ->
  toUcs4 (a ++ x :: b) = toUcs4 a ++ toUcs4 (x :: b).
Proof.
  induction n as [|n IH]; intros a x b Hn Hx.
  - destruct a; [reflexivity | simpl in Hn; lia].
  - destruct a as [|cur rest]; [reflexivity|].
    cbn [length] in Hn.
    destruct rest as [|low rest'].
    + cbn [app toUcs4]. rewrite Hx, andb_false_r.
      destruct (isSurrogate cur); reflexivity.
    + cbn [length] in Hn.
      pose proof (IH rest' x b ltac:(lia) Hx) as IH1.
      pose proof (IH (low :: rest') x b ltac:(cbn [length]; lia) Hx) as IH2.
      change ((cur :: low :: rest') ++ x :: b)
        with (cur :: low :: (rest' ++ x :: b)).
      change (toUcs4 (cur :: low :: (rest' ++ x :: b)))
        with (if isSurrogate cur
              then if isHighSurrogate cur && isLowSurrogate low
                   then surrogateToUcs4 cur low :: toUcs4 (rest' ++ x :: b)
                   else ReplacementCharacter
                        :: toUcs4 ((low :: rest') ++ x :: b)
              else cur :: toUcs4 ((low :: rest') ++ x :: b)).
      change (toUcs4 (cur :: low :: rest'))
        with (if isSurrogate cur
              then if isHighSurrogate cur && isLowSurrogate low
                   then surrogateToUcs4 cur low :: toUcs4 rest'
                   else ReplacementCharacter :: toUcs4 (low :: rest')
              else cur :: toUcs4 (low :: rest')).
      rewrite IH1, IH2.
      destruct (isSurrogate cur);
        [destruct (isHighSurrogate cur && isLowSurrogate low)|]; reflexivity.
Qed.

Lemma toUcs4_app_boundary a x b :
  isLowSurrogate x = false ->
  toUcs4 (a ++ x :: b) = toUcs4 a ++ toUcs4 (x :: b).
Proof. apply (toUcs4_app_boundary_aux (length a)). lia. Qed.

Lemma rawCount_app_boundary a x b :
  isLowSurrogate x = false ->
  rawCount (a ++ x :: b) = rawCount a + rawCount (x :: b).
Proof.
  intros Hx. unfold rawCount, codePoints, joiners, modifiers.
  rewrite toUcs4_app_boundary by exact Hx.
  rewrite !List.filter_app, !length_app. lia.
Qed.

(** X3. Before clamping the estimate is additive: cutting a string in front of
    any unit that is not a low surrogate splits the count. *)
Theorem printableCharacterCount_app (a : QString) (x : QChar) (b : QString) :
  Z.of_nat (length (a ++ x :: b)) < 2 ^ 31 ->
  isLowSurrogate x = false ->
  printableCharacterCount (a ++ x :: b)
  = Z.max 0 (rawCount a + rawCount (x :: b)).
Proof.
  intros Hlen Hx. rewrite printableCharacterCount_raw by exact Hlen.
  now rewrite rawCount_app_boundary.
Qed.

Lemma printableCharacterCount_app_witness :
  printableCharacterCount ([0xd83d; 0xdc4d; 0xd83c; 0xdffb] ++ 0x61 :: [0x62])
  = Z.max 0 (1 + 2).
Proof.
  exact (printableCharacterCount_app [0xd83d; 0xdc4d; 0xd83c; 0xdffb] 0x61
           [0x62] eq_refl eq_refl).
Defined.

(** X4. Joining two strings with U+200D yields one perceived character less
    than the two counts together, as long as neither count was clamped. *)
Theorem printableCharacterCount_joined (a b : QString) :
  Z.of_nat (length (a ++ 0x200d :: b)) < 2 ^ 31 ->
  0 <= rawCount a -> 0 <= rawCount b ->
  printableCharacterCount (a ++ 0x200d :: b)
  = Z.max 0 (printableCharacterCount a + printableCharacterCount b - 1).
Proof.
  intros Hlen Ha Hb.
  rewrite length_app in Hlen. cbn [length] in Hlen.
  rewrite printableCharacterCount_app
    by (reflexivity || (rewrite length_app; cbn [length]; lia)).
  rewrite (printableCharacterCount_raw a), (printableCharacterCount_raw b) by lia.
  unfold QString, QChar in *.
  assert (Hj : rawCount (0x200d :: b) = rawCount b - 1).
  { unfold rawCount, codePoints, joiners, modifiers.
    change (toUcs4 (0x200d :: b)) with (0x200d :: toUcs4 b).
    change (List.filter isZeroWidthJoiner (0x200d :: toUcs4 b))
      with (0x200d :: List.filter isZeroWidthJoiner (toUcs4 b)).
    change (List.filter isFitzpatrick (0x200d :: toUcs4 b))
      with (List.filter isFitzpatrick (toUcs4 b)).
    cbn [length]. unfold QString, QChar in *. lia. }
  rewrite Hj. lia.
Qed.

(** Man, ZWJ, woman: 1 + 1 - 1. *)
Lemma printableCharacterCount_joined_witness :
  printableCharacterCount ([0xd83d; 0xdc68] ++ 0x200d :: [0xd83d; 0xdc69])
  = Z.max 0 (printableCharacterCount [0xd83d; 0xdc68]
             + printableCharacterCount [0xd83d; 0xdc69] - 1).
Proof.
  apply (printableCharacterCount_joined [0xd83d; 0xdc68] [0xd83d; 0xdc69]);
    vm_compute; congruence.
Defined.

(** ** The Windows version test *)

Lemma leadingDigits_afterDigits s : s = leadingDigits s ++ afterDigits s.
Proof.
  induction s as [|c rest IH]; [reflexivity|].
  cbn [leadingDigits afterDigits]. destruct (isDigit c); [|reflexivity].
  cbn [app]. now rewrite <- IH.
Qed.

Lemma leadingDigits_digits s : Forall (fun c => isDigit c = true) (leadingDigits s).
Proof.
  induction s as [|c rest IH]; [constructor|].
  cbn [leadingDigits]. destruct (isDigit c) eqn:Hc; constructor; assumption.
Qed.

Lemma leadingDigits_app digits c rest :
  Forall (fun d => isDigit d = true) digits -> isDigit c = false ->
  leadingDigits (digits ++ c :: rest) = digits /\
  afterDigits (digits ++ c :: rest) = c :: rest.
Proof.
  intros Hd Hc. induction Hd as [|d l Hdig _ IH].
  - cbn [app leadingDigits afterDigits]. now rewrite Hc.
  - cbn [app leadingDigits afterDigits]. rewrite Hdig.
    destruct IH as [-> ->]. now split.
Qed.

Lemma captured_Some s major :
  captured s = Some major <->
  exists rest,
    s = major ++ 0x2e :: rest /\ major <> [] /\
    Forall (fun c => isDigit c = true) major.
Proof.
  unfold captured. split.
  - intros H. pose proof (leadingDigits_afterDigits s) as Hs.
    pose proof (leadingDigits_digits s) as Hd.
    destruct (leadingDigits s) as [|d ds] eqn:Hl; [discriminate|].
    destruct (afterDigits s) as [|c rest]; [discriminate|].
    destruct (Z.eqb_spec c 0x2e) as [->|]; [|discriminate].
    injection H as <-. exists rest. repeat split; [exact Hs | discriminate | exact Hd].
  - intros (rest & -> & Hne & Hd).
    destruct (leadingDigits_app major 0x2e rest Hd eq_refl) as [H1 H2].
    unfold QString, QChar in *. rewrite H1, H2.
    destruct major; [contradiction | reflexivity].
Qed.

(** X5. The test answers true exactly for the strings that start with a decimal
    number between 10 and [INT_MAX] followed by a dot; what comes after the
    dot is never looked at. *)
Theorem isAppRunningOnWindows10OrHigher_iff (kernelVersion : QString) :
  isAppRunningOnWindows10OrHigher kernelVersion = true <->
  exists major rest,
    kernelVersion = major ++ 0x2e :: rest /\ major <> [] /\
    Forall (fun c => isDigit c = true) major /\
    10 <= decimalValue major <= 2 ^ 31 - 1.
Proof.
  unfold isAppRunningOnWindows10OrHigher. split.
  - destruct (captured kernelVersion) as [major|] eqn:Hc; [|discriminate].
    apply captured_Some in Hc as (rest & Hs & Hne & Hd).
    unfold toInt. intros H. exists major, rest.
    destruct (Z.leb_spec (decimalValue major) (2 ^ 31 - 1)).
    + rewrite Z.geb_leb in H. apply Z.leb_le in H. repeat split; assumption || lia.
    + discriminate.
  - intros (major & rest & Hs & Hne & Hd & Hlo & Hhi).
    assert (Hc : captured kernelVersion = Some major)
      by (apply captured_Some; now exists rest).
    rewrite Hc. unfold toInt.
    destruct (Z.leb_spec (decimalValue major) (2 ^ 31 - 1)); [|lia].
    rewrite Z.geb_leb. now apply Z.leb_le.
Qed.

(** "10.0.19041" is Windows 10 or higher. *)
Lemma isAppRunningOnWindows10OrHigher_iff_witness :
  isAppRunningOnWindows10OrHigher
    [0x31; 0x30; 0x2e; 0x30; 0x2e; 0x31; 0x39; 0x30; 0x34; 0x31] = true.
Proof.
  apply (proj2 (isAppRunningOnWindows10OrHigher_iff
                  [0x31; 0x30; 0x2e; 0x30; 0x2e; 0x31; 0x39; 0x30; 0x34; 0x31])).
  exists [0x31; 0x30], [0x30; 0x2e; 0x31; 0x39; 0x30; 0x34; 0x31].
  split; [reflexivity|]. split; [discriminate|].
  split; [repeat constructor|]. vm_compute. split; discriminate.
Defined.

(** X6. Edge cases of the test: the empty string, a string that does not start
    with a digit, a number with no dot after it, and a major number too
    large for an [int] (for which [toInt] gives 0) all answer false. *)
Theorem isAppRunningOnWindows10OrHigher_false :
  isAppRunningOnWindows10OrHigher [] = false /\
  (forall c rest, isDigit c = false ->
     isAppRunningOnWindows10OrHigher (c :: rest) = false) /\
  (forall digits, Forall (fun c => isDigit c = true) digits ->
     isAppRunningOnWindows10OrHigher digits = false) /\
  (forall digits c rest, Forall (fun d => isDigit d = true) digits ->
     isDigit c = false -> c <> 0x2e ->
     isAppRunningOnWindows10OrHigher (digits ++ c :: rest) = false) /\
  (forall digits rest, Forall (fun c => isDigit c = true) digits ->
     2 ^ 31 <= decimalValue digits ->
     isAppRunningOnWindows10OrHigher (digits ++ 0x2e :: rest) = false).
Proof.
  split; [reflexivity|]. split.
  { intros c rest Hc. unfold isAppRunningOnWindows10OrHigher, captured.
    cbn [leadingDigits]. now rewrite Hc. }
  split.
  { intros digits Hd. unfold isAppRunningOnWindows10OrHigher, captured.
    assert (Ha : afterDigits digits = []).
    { induction Hd as [|d l Hdig _ IH]; [reflexivity|].
      cbn [afterDigits]. now rewrite Hdig. }
    rewrite Ha. now destruct (leadingDigits digits). }
  split.
  { intros digits c rest Hd Hc Hdot.
    unfold isAppRunningOnWindows10OrHigher, captured.
    destruct (leadingDigits_app digits c rest Hd Hc) as [H1 H2].
    unfold QString, QChar in *. rewrite H1, H2.
    destruct digits; [reflexivity|].
    now destruct (Z.eqb_spec c 0x2e). }
  intros digits rest Hd Hbig.
  unfold isAppRunningOnWindows10OrHigher, captured.
  destruct (leadingDigits_app digits 0x2e rest Hd eq_refl) as [H1 H2].
  unfold QString, QChar in *. rewrite H1, H2.
  destruct digits as [|d ds]; [reflexivity|].
  change (0x2e =? 0x2e) with true. cbv iota. unfold toInt.
  destruct (Z.leb_spec (decimalValue (d :: ds)) (2 ^ 31 - 1)); [lia | reflexivity].
Qed.

(** "x86", "10", "10-rc" and "2147483648.0". *)
Lemma isAppRunningOnWindows10OrHigher_false_witness :
  isAppRunningOnWindows10OrHigher [0x78; 0x38; 0x36] = false /\
  isAppRunningOnWindows10OrHigher [0x31; 0x30] = false /\
  isAppRunningOnWindows10OrHigher ([0x31; 0x30] ++ 0x2d :: [0x72; 0x63]) = false /\
  isAppRunningOnWindows10OrHigher
    ([0x32; 0x31; 0x34; 0x37; 0x34; 0x38; 0x33; 0x36; 0x34; 0x38]
     ++ 0x2e :: [0x30]) = false.
Proof.
  destruct isAppRunningOnWindows10OrHigher_false as (_ & H1 & H2 & H3 & H4).
  split; [apply H1; reflexivity|].
  split; [apply H2; repeat constructor|].
  split; [apply H3; [repeat constructor | reflexivity | discriminate]|].
  apply H4; [repeat constructor | vm_compute; discriminate].
Defined.

(** ** Portable mode *)

Lemma isInPortableModeCalls_cached insts result :
  isInPortableModeCalls insts (Some result) = repeat result (length insts).
Proof.
  induction insts as [|inst later IH]; [reflexivity|].
  cbn [isInPortableModeCalls isInPortableMode length repeat]. now rewrite IH.
Qed.

(** X7. The answer of [isInPortableMode] is computed by the first call and
    given again by every later call, whatever has become of the beacon
    files in the meantime. *)
Theorem isInPortableMode_frozen (first : Installation)
    (later : list Installation) :
  isInPortableModeCalls (first :: later) None
  = repeat (isInPortableModeInternal first) (S (length later)).
Proof.
  cbn [isInPortableModeCalls isInPortableMode repeat].
  now rewrite isInPortableModeCalls_cached.
Qed.

(** X8. An installation that has the PortableApps layout when
    [isInPortableMode] is first called is in portable mode for good. *)
Theorem portableApps_layout_is_portable (first : Installation)
    (later : list Installation) :
  usePortableAppsFolderLayout first = true ->
  Forall (fun answer => answer = true)
    (isInPortableModeCalls (first :: later) None).
Proof.
  intros Hlayout.
  cbn [isInPortableModeCalls isInPortableMode].
  rewrite isInPortableModeCalls_cached.
  assert (Hp : isInPortableModeInternal first = true).
  { unfold isInPortableModeInternal. unfold usePortableAppsFolderLayout in Hlayout.
    cbv zeta. rewrite Hlayout. apply orb_true_r. }
  rewrite Hp. constructor; [reflexivity|].
  induction (length later); constructor; auto.
Qed.

Lemma portableApps_layout_is_portable_witness :
  let dir := [0x43; 0x3a; 0x2f; 0x42] in
  let first :=
    {| applicationDirPath := dir;
       fileExists := fun path =>
         bool_decide (path = dir ++ [0x2f] ++ kPortableAppsModeBeaconFileName) |} in
  let gone := {| applicationDirPath := dir; fileExists := fun _ => false |} in
  Forall (fun answer => answer = true)
    (isInPortableModeCalls [first; gone; gone] None).
Proof.
  intros dir first gone.
  apply (portableApps_layout_is_portable first [gone; gone]).
  vm_compute. reflexivity.
Defined.

(** ** The name of the foreground executable *)

Lemma fromWCharArray_terminated path junk :
  ~ In 0 path -> fromWCharArray (path ++ 0 :: junk) = path.
Proof.
  induction path as [|c rest IH]; intros Hnul; [reflexivity|].
  cbn [app fromWCharArray].
  destruct (Z.eqb_spec c 0) as [->|_]; [elim Hnul; now left|].
  rewrite IH; [reflexivity|]. intros H. apply Hnul. now right.
Qed.

Lemma fileName_fold name : forall acc,
  ~ In 0x2f name ->
  fold_left (fun acc c => if c =? 0x2f then [] else acc ++ [c]) name acc
  = acc ++ name.
Proof.
  induction name as [|c rest IH]; intros acc Hno.
  - cbn. now rewrite app_nil_r.
  - cbn [fold_left].
    destruct (Z.eqb_spec c 0x2f) as [->|_]; [elim Hno; now left|].
    rewrite IH by (intros H; apply Hno; now right).
    now rewrite <- app_assoc.
Qed.

Lemma fileName_last_component dir name :
  ~ In 0x2f name -> fileName (dir ++ 0x2f :: name) = name.
Proof.
  intros Hno. unfold fileName. rewrite fold_left_app. cbn [fold_left].
  change (0x2f =? 0x2f) with true. cbv iota.
  now rewrite fileName_fold.
Qed.

Lemma fromNativeSeparators_plain name :
  ~ In 0x5c name -> fromNativeSeparators name = name.
Proof.
  unfold fromNativeSeparators.
  induction name as [|c rest IH]; intros Hno; [reflexivity|].
  cbn [map]. destruct (Z.eqb_spec c 0x5c) as [->|_]; [elim Hno; now left|].
  rewrite IH; [reflexivity|]. intros H. apply Hno. now right.
Qed.

(** X9. When both queries succeed and the buffer holds a NUL-terminated path,
    the name returned is what follows the last separator of the path,
    backslash or slash. *)
Theorem activeExecutableFileName_last_component (fg : Foreground)
    (dir : QString) (sep : QChar) (name junk : QString) :
  processHandle fg <> 0 ->
  moduleFileNameEx fg <> 0 ->
  buffer fg = dir ++ sep :: name ++ 0 :: junk ->
  sep = 0x5c \/ sep = 0x2f ->
  ~ In 0 dir -> ~ In 0 name ->
  ~ In 0x5c name -> ~ In 0x2f name ->
  activeExecutableFileName fg = name.
Proof.
  intros Hh Hm Hbuf Hsep Hd0 Hn0 Hnb Hns.
  unfold activeExecutableFileName.
  destruct (Z.eqb_spec (processHandle fg) 0); [contradiction|].
  destruct (Z.eqb_spec (moduleFileNameEx fg) 0); [contradiction|].
  cbn [negb]. rewrite Hbuf.
  replace (dir ++ sep :: name ++ 0 :: junk)
    with ((dir ++ sep :: name) ++ 0 :: junk)
    by (now rewrite <- app_assoc).
  rewrite fromWCharArray_terminated.
  - assert (Hsplit : fromNativeSeparators (dir ++ sep :: name)
                     = fromNativeSeparators dir ++ 0x2f :: name).
    { unfold fromNativeSeparators at 1. rewrite map_app. cbn [map].
      change (map (fun c => if c =? 0x5c then 0x2f else c) name)
        with (fromNativeSeparators name).
      rewrite (fromNativeSeparators_plain name Hnb).
      now destruct Hsep as [-> | ->]. }
    rewrite Hsplit. now apply fileName_last_component.
  - intros [H | [H | H]]%in_app_iff; [now apply Hd0 | | now apply Hn0].
    destruct Hsep as [-> | ->]; discriminate.
Qed.

(** "C:\App\note.exe" followed by the zero filling of the buffer. *)
Lemma activeExecutableFileName_last_component_witness :
  activeExecutableFileName idleForeground
  = [110; 111; 116; 101; 46; 101; 120; 101].
Proof.
  apply (activeExecutableFileName_last_component idleForeground
           [67; 58; 92; 65; 112; 112] 92
           [110; 111; 116; 101; 46; 101; 120; 101] [0]);
    vm_compute; intuition discriminate.
Defined.

Lemma fileName_no_slash s :
  ~ In 0x2f (fileName s).
Proof.
  unfold fileName.
  assert (H : forall acc, ~ In 0x2f acc ->
            ~ In 0x2f (fold_left
                         (fun acc c => if c =? 0x2f then [] else acc ++ [c]) s acc)).
  { induction s as [|c rest IH]; intros acc Hacc; [exact Hacc|].
    cbn [fold_left]. apply IH.
    destruct (Z.eqb_spec c 0x2f); [intros []|].
    intros [H | [H | []]]%in_app_iff; [now apply Hacc | congruence]. }
  apply H. intros [].
Qed.

Lemma fileName_incl s c : In c (fileName s) -> In c s.
Proof.
  unfold fileName.
  assert (H : forall acc,
            In c (fold_left
                    (fun acc c => if c =? 0x2f then [] else acc ++ [c]) s acc) ->
            In c acc \/ In c s).
  { induction s as [|x rest IH]; intros acc Hin; [now left|].
    cbn [fold_left] in Hin. apply IH in Hin as [Hin | Hin]; [|right; now right].
    destruct (x =? 0x2f); [contradiction|].
    apply in_app_iff in Hin as [Hin | [<- | []]]; [now left | right; now left]. }
  intros Hin. apply H in Hin as [[] | Hin]. exact Hin.
Qed.

(** X10. Whatever the two queries answer, the lookup neither raises nor changes
    the world, and the name it returns holds no path separator and no NUL. *)
Theorem getActiveExecutableFileName_is_a_bare_name (w : World) :
  exists name,
    getActiveExecutableFileName w = (Returned name, w) /\
    ~ In 0x2f name /\ ~ In 0x5c name /\ ~ In 0 name.
Proof.
  exists (activeExecutableFileName (foreground w)).
  split; [reflexivity|].
  unfold activeExecutableFileName.
  destruct (processHandle (foreground w) =? 0); [now repeat split|].
  destruct (negb (moduleFileNameEx (foreground w) =? 0)); [|now repeat split].
  split; [apply fileName_no_slash|]. split.
  - intros Hin%fileName_incl. unfold fromNativeSeparators in Hin.
    apply in_map_iff in Hin as (c & Hc & _).
    destruct (c =? 0x5c) eqn:E; [discriminate|].
    apply Z.eqb_neq in E. congruence.
  - intros Hin%fileName_incl. unfold fromNativeSeparators in Hin.
    apply in_map_iff in Hin as (c & Hc & Hin).
    assert (c = 0) as -> by (destruct (c =? 0x5c); [discriminate | exact Hc]).
    clear Hc. induction (buffer (foreground w)) as [|x rest IH]; [contradiction|].
    cbn [fromWCharArray] in Hin. destruct (Z.eqb_spec x 0); [contradiction|].
    destruct Hin as [Hx | Hin]; [congruence | now apply IH].
Qed.

(** ** Events of a call in which anything may fail *)

Lemma popFault_replay evs : forall w,
  popFault (replay evs w) = replay evs (popFault w).
Proof.
  induction evs as [|e evs IH]; intros w; [reflexivity|].
  rewrite !replay_cons, IH. reflexivity.
Qed.

Lemma dropFaults_replay k : forall evs w,
  dropFaults k (replay evs w) = replay evs (dropFaults k w).
Proof.
  induction k as [|k IH]; intros evs w; [reflexivity|].
  cbn [dropFaults]. now rewrite popFault_replay, IH.
Qed.

Lemma dropFaults_add k1 : forall k2 w,
  dropFaults k2 (dropFaults k1 w) = dropFaults (k1 + k2) w.
Proof.
  induction k1 as [|k1 IH]; intros k2 w; [reflexivity|].
  cbn [dropFaults Nat.add]. apply IH.
Qed.

Lemma dropFaults_fields k : forall w,
  keyboardHookEnabled (dropFaults k w) = keyboardHookEnabled w /\
  pressed (dropFaults k w) = pressed w /\
  clipboardState (dropFaults k w) = clipboardState w /\
  foreground (dropFaults k w) = foreground w /\
  trace (dropFaults k w) = trace w.
Proof.
  induction k as [|k IH]; intros w; [now repeat split|].
  cbn [dropFaults]. destruct (IH (popFault w)) as (-> & -> & -> & -> & ->).
  now repeat split.
Qed.

Lemma emitsAt_ret {A} p (a : A) w : emitsAt p (ret a) w.
Proof. exists [], 0%nat. split; [reflexivity | constructor]. Qed.

Lemma emitsAt_bind {A B} p (m : M A) (k : A -> M B) w :
  emitsAt p m w ->
  (forall a w1, m w = (Returned a, w1) -> emitsAt p (k a) w1) ->
  emitsAt p (bind m k) w.
Proof.
  intros (evs1 & k1 & Hw1 & Hp1) Hk. unfold emitsAt, bind.
  destruct (m w) as [[a|e] w1] eqn:Hm; cbn [snd] in Hw1.
  - destruct (Hk a w1 eq_refl) as (evs2 & k2 & Hw2 & Hp2).
    exists (evs1 ++ evs2), (k1 + k2)%nat. split.
    + rewrite Hw2, Hw1, dropFaults_replay, dropFaults_add, replay_app.
      reflexivity.
    + apply Forall_app. now split.
  - exists evs1, k1. now split.
Qed.

Lemma emitsOnly_bind {A B} p (m : M A) (k : A -> M B) :
  emitsOnly p m -> (forall a, emitsOnly p (k a)) -> emitsOnly p (bind m k).
Proof.
  intros Hm Hk w. apply emitsAt_bind; [apply Hm|]. intros a w1 _. apply Hk.
Qed.

Lemma emitsOnly_prim (p : Event -> Prop) e : p e -> emitsOnly p (prim e).
Proof.
  intros He w. unfold emitsAt, prim.
  destruct (pendingFaults w) as [|[x|] faults]; cbn [snd].
  - exists [e], 0%nat. split; [reflexivity | now constructor].
  - exists [], 1%nat. split; [reflexivity | constructor].
  - exists [e], 1%nat. split; [reflexivity | now constructor].
Qed.

Lemma emitsOnly_effect (p : Event -> Prop) e : p e -> emitsOnly p (effect e).
Proof.
  intros He w. exists [e], 0%nat. split; [reflexivity | now constructor].
Qed.

Lemma emitsOnly_ret {A} p (a : A) : emitsOnly p (ret a).
Proof. intros w. apply emitsAt_ret. Qed.

Lemma emitsOnly_times p n body : emitsOnly p body -> emitsOnly p (times n body).
Proof.
  intros Hb. induction n as [|n IH]; [apply emitsOnly_ret|].
  cbn [times]. now apply emitsOnly_bind.
Qed.

Lemma emitsOnly_forEach {A} p (xs : list A) body :
  (forall x, In x xs -> emitsOnly p (body x)) -> emitsOnly p (forEach xs body).
Proof.
  induction xs as [|x xs IH]; intros Hb; [apply emitsOnly_ret|].
  cbn [forEach]. apply emitsOnly_bind; [apply Hb; now left|].
  intros _. apply IH. intros y Hy. apply Hb. now right.
Qed.

Lemma emitsOnly_keyDownAndUp p key :
  admitsKey p key -> emitsOnly p (synthesizeKeyDownAndUp key).
Proof.
  intros [Hd Hu]. unfold synthesizeKeyDownAndUp.
  apply emitsOnly_bind; [now apply emitsOnly_prim|].
  intros _. now apply emitsOnly_prim.
Qed.

Lemma emitsOnly_releaseLoop p keys : forall result,
  (forall key, In key keys -> p (EvKeyUp key)) ->
  emitsOnly p (releaseLoop keys result).
Proof.
  induction keys as [|key keys IH]; intros result Hp; cbn [releaseLoop].
  - apply emitsOnly_ret.
  - apply emitsOnly_bind; [intros w; apply emitsAt_ret|].
    intros state.
    assert (Hrest : forall r, emitsOnly p (releaseLoop keys r))
      by (intros r; apply IH; intros k Hk; apply Hp; now right).
    destruct (state <? 0); [|apply Hrest].
    apply emitsOnly_bind; [apply emitsOnly_prim, Hp; now left|].
    intros _. apply Hrest.
Qed.

(** Whatever fails, the snapshot holds only keys of the list scanned. *)
Lemma releaseLoop_result keys : forall result w snapshot w1,
  releaseLoop keys result w = (Returned snapshot, w1) ->
  forall key, In key snapshot -> In key result \/ In key keys.
Proof.
  induction keys as [|key keys IH]; intros result w snapshot w1 Hrun k Hk.
  - cbn in Hrun. injection Hrun as <- _. now left.
  - cbn [releaseLoop] in Hrun. unfold bind, GetKeyState in Hrun.
    destruct ((if decide (key ∈ pressed w) then -128 else 0) <? 0).
    + unfold synthesizeKeyUp in Hrun.
      destruct (prim (EvKeyUp key) w) as [[[]|e] w2]; [|discriminate].
      destruct (IH _ _ _ _ Hrun k Hk) as [Hin | Hin]; [|right; now right].
      apply in_app_iff in Hin as [Hin | [<- | []]]; [now left | right; now left].
    + destruct (IH _ _ _ _ Hrun k Hk) as [Hin | Hin]; [now left | right; now right].
Qed.

Lemma emitsOnly_restoreModifierKeys p keys :
  (forall key, In key keys -> p (EvKeyDown key)) ->
  emitsOnly p (restoreModifierKeys keys).
Proof.
  intros Hp. unfold restoreModifierKeys. apply emitsOnly_forEach.
  intros key Hk. apply emitsOnly_prim. now apply Hp.
Qed.

Lemma emitsOnly_bracket p (body : M unit) :
  admitsModifiers p ->
  emitsOnly p body ->
  emitsOnly p (pressedModifiers <- backupAndReleaseModifierKeys ;;
               body ;;
               restoreModifierKeys pressedModifiers).
Proof.
  intros Hmod Hbody w.
  apply emitsAt_bind.
  - apply emitsOnly_releaseLoop. intros key Hk. now apply Hmod.
  - intros snapshot w1 Hrun.
    apply emitsOnly_bind; [exact Hbody|]. intros _.
    apply emitsOnly_restoreModifierKeys. intros key Hk.
    destruct (releaseLoop_result _ _ _ _ _ Hrun key Hk) as [[] | Hin].
    now apply Hmod.
Qed.

Lemma emitsOnly_ext {A} p (m m' : M A) :
  (forall w, m w = m' w) -> emitsOnly p m' -> emitsOnly p m.
Proof. intros Heq Hm w. unfold emitsAt. rewrite Heq. apply Hm. Qed.

Lemma emitsOnly_synthesizeBackspaces p count :
  admitsKey p VK_BACK -> emitsOnly p (synthesizeBackspaces count).
Proof.
  intros Hp. unfold synthesizeBackspaces.
  now apply emitsOnly_times, emitsOnly_keyDownAndUp.
Qed.

Lemma emitsOnly_waitBetweenKeystrokes p delayMs :
  (0 < delayMs -> p (EvSleep delayMs)) ->
  emitsOnly p (waitBetweenKeystrokes delayMs).
Proof.
  intros Hp. unfold waitBetweenKeystrokes, msleep.
  destruct (Z.gtb_spec delayMs 0); [|apply emitsOnly_ret].
  apply emitsOnly_effect, Hp. lia.
Qed.

Lemma emitsOnly_typeSnippet p htmlToPlainText delayMs newText isHtml :
  admitsModifiers p ->
  admitsTyping p delayMs (snippetToPlainText htmlToPlainText newText isHtml) ->
  emitsOnly p (typeSnippet htmlToPlainText delayMs newText isHtml).
Proof.
  intros Hmod (Hret & Huni & Hsleep). unfold typeSnippet.
  apply emitsOnly_forEach. intros c Hc. unfold typeChar.
  destruct (Z.eqb_spec c LineFeed) as [->|Hne];
    (eapply emitsOnly_ext; [intros w; apply bind_bracket_then|]);
    (apply emitsOnly_bind;
       [|intros _; now apply emitsOnly_waitBetweenKeystrokes]);
    apply emitsOnly_bracket; try exact Hmod.
  - now apply emitsOnly_keyDownAndUp.
  - apply emitsOnly_prim. now apply Huni.
Qed.

Lemma pasteSnippet_shape newText (isHtml : bool) w :
  pasteSnippet newText isHtml w
  = (backupClipboard ;;
     (if isHtml then setHtml newText else setText newText) ;;
     (pressedModifiers <- backupAndReleaseModifierKeys ;;
      (synthesizeKeyDown VK_LCONTROL ;; synthesizeKeyDownAndUp VK_V ;;
       synthesizeKeyUp VK_LCONTROL) ;;
      restoreModifierKeys pressedModifiers) ;;
     singleShot 1000 RestoreClipboard) w.
Proof.
  unfold pasteSnippet, bind.
  destruct (backupClipboard w) as [[[]|e] w1]; [|reflexivity].
  destruct ((if isHtml then setHtml newText else setText newText) w1)
    as [[[]|e] w2]; [|reflexivity].
  destruct (backupAndReleaseModifierKeys w2) as [[keys|e] w3]; [|reflexivity].
  destruct (synthesizeKeyDown VK_LCONTROL w3) as [[[]|e] w4]; [|reflexivity].
  destruct (synthesizeKeyDownAndUp VK_V w4) as [[[]|e] w5]; [|reflexivity].
  destruct (synthesizeKeyUp VK_LCONTROL w5) as [[[]|e] w6]; [|reflexivity].
  destruct (restoreModifierKeys keys w6) as [[[]|e] w7]; reflexivity.
Qed.

Lemma modifierKeys_LCONTROL : In VK_LCONTROL modifierKeys.
Proof. now left. Qed.

Lemma emitsOnly_controlV p :
  admitsModifiers p -> admitsKey p VK_V ->
  emitsOnly p (synthesizeKeyDown VK_LCONTROL ;; synthesizeKeyDownAndUp VK_V ;;
               synthesizeKeyUp VK_LCONTROL).
Proof.
  intros Hmod Hv. destruct (Hmod _ modifierKeys_LCONTROL) as [Hu Hd].
  apply emitsOnly_bind; [now apply emitsOnly_prim|]. intros _.
  apply emitsOnly_bind; [now apply emitsOnly_keyDownAndUp|]. intros _.
  now apply emitsOnly_prim.
Qed.

Lemma emitsOnly_pasteSnippet p newText isHtml :
  admitsModifiers p ->
  admitsPasting p newText isHtml ->
  emitsOnly p (pasteSnippet newText isHtml).
Proof.
  intros Hmod (Hb & Hs & Hv & Ht).
  eapply emitsOnly_ext; [intros w; apply pasteSnippet_shape|].
  apply emitsOnly_bind; [now apply emitsOnly_prim|]. intros _.
  apply emitsOnly_bind.
  { destruct isHtml; now apply emitsOnly_prim. }
  intros _. apply emitsOnly_bind.
  { apply emitsOnly_bracket; [exact Hmod | now apply emitsOnly_controlV]. }
  intros _. now apply emitsOnly_prim.
Qed.

Lemma emitsOnly_positionCursor p htmlToPlainText newText isHtml cursorPos :
  admitsModifiers p -> admitsKey p VK_LEFT ->
  emitsOnly p (positionCursor htmlToPlainText newText isHtml cursorPos).
Proof.
  intros Hmod Hleft. unfold positionCursor.
  destruct (cursorPos >=? 0); [|apply emitsOnly_ret].
  apply emitsOnly_bracket; [exact Hmod|].
  now apply emitsOnly_times, emitsOnly_keyDownAndUp.
Qed.

Lemma foregroundName_emitted evs k w :
  foregroundName (replay evs (dropFaults k w)) = foregroundName w.
Proof.
  rewrite foregroundName_replay. unfold foregroundName.
  now destruct (dropFaults_fields k w) as (_ & _ & _ & -> & _).
Qed.

(** The body performs only events that the predicate admits for erasing,
    for repositioning and for the one strategy the verdict selects. *)
Lemma emitsAt_substitutionBody p (isSensitiveApplication : QString -> bool)
    htmlToPlainText delayBetweenKeystrokesMs charCount newText isHtml
    cursorPos w :
  admitsModifiers p ->
  admitsKey p VK_BACK ->
  admitsKey p VK_LEFT ->
  (if isSensitiveApplication (foregroundName w)
   then admitsTyping p delayBetweenKeystrokesMs
          (snippetToPlainText htmlToPlainText newText isHtml)
   else admitsPasting p newText isHtml) ->
  emitsAt p (substitutionBody isSensitiveApplication htmlToPlainText
               delayBetweenKeystrokesMs charCount newText isHtml cursorPos) w.
Proof.
  intros Hmod Hback Hleft Hdeliver. unfold substitutionBody.
  pose proof (emitsOnly_synthesizeBackspaces p (qMax charCount 0) Hback w)
    as Herase.
  apply emitsAt_bind; [exact Herase|].
  intros [] w1 Hrun1.
  assert (Hname : foregroundName w1 = foregroundName w).
  { destruct Herase as (evs & k & Hw1 & _). rewrite Hrun1 in Hw1.
    cbn [snd] in Hw1. rewrite Hw1. apply foregroundName_emitted. }
  apply emitsAt_bind; [apply emitsAt_ret|].
  intros exeName w2 Hget. rewrite getActiveExecutableFileName_pure in Hget.
  injection Hget as <- <-. rewrite Hname.
  apply emitsAt_bind.
  - destruct (isSensitiveApplication (foregroundName w)); cbn [negb].
    + now apply emitsOnly_typeSnippet.
    + now apply emitsOnly_pasteSnippet.
  - intros _ w3 _. now apply emitsOnly_positionCursor.
Qed.

Lemma performTextSubstitution_finishCall isSensitiveApplication htmlToPlainText
    delayBetweenKeystrokesMs charCount newText isHtml cursorPos w :
  performTextSubstitution isSensitiveApplication htmlToPlainText
    delayBetweenKeystrokesMs charCount newText isHtml cursorPos w
  = finishCall (keyboardHookEnabled w)
      (substitutionBody isSensitiveApplication htmlToPlainText
         delayBetweenKeystrokesMs charCount newText isHtml cursorPos
         (step (EvSetKeyboardHookEnabled false) w)).
Proof.
  unfold performTextSubstitution.
  unfold bind at 1. unfold setKeyboardHookEnabled at 1.
  unfold bind at 1. unfold tryCatchException, finishCall.
  destruct (substitutionBody _ _ _ _ _ _ _ _) as [[[]|[]] w1]; reflexivity.
Qed.

Lemma engineKeys_modifier key : In key modifierKeys -> In key engineKeys.
Proof. intros H. apply in_app_iff. now left. Qed.

Lemma trace_emitted evs k w :
  trace (replay evs (dropFaults k w)) = trace w ++ evs.
Proof.
  rewrite replay_trace.
  now destruct (dropFaults_fields k w) as (_ & _ & _ & _ & ->).
Qed.

Lemma clipboardState_emitted evs k w :
  Forall (fun e => isClipboardEvent e = false) evs ->
  clipboardState (replay evs (dropFaults k w)) = clipboardState w.
Proof.
  intros Hevs. rewrite clipboardState_replay.
  - now destruct (dropFaults_fields k w) as (_ & _ & -> & _).
  - apply countEvents_none. now apply List.Forall_forall.
Qed.

Section AnyFailure.

Variable isSensitiveApplication : QString -> bool.
Variable htmlToPlainText : QString -> QString.
Variable delayBetweenKeystrokesMs : Z.

Local Abbreviation body :=
  (substitutionBody isSensitiveApplication htmlToPlainText
     delayBetweenKeystrokesMs).
Local Abbreviation run :=
  (performTextSubstitution isSensitiveApplication htmlToPlainText
     delayBetweenKeystrokesMs).

(** X11. Whatever fails and wherever, the events of a call are: the hook is
    disabled; then only events of the engine's alphabet, that is presses and
    releases of the eight modifiers and of Backspace, V, Return and Left,
    Unicode events for characters of the typed text other than line feed,
    sleeps of the configured positive delay, a clipboard backup, the
    overwriting of the clipboard with the replacement in its own form, and
    single-shot timers of 1000 ms for the clipboard restoration; then the
    hook is put back, unless an exception of a foreign type escapes. In
    particular nothing touches the hook in between. *)
Theorem call_events_envelope (charCount : Z) (newText : QString)
    (isHtml : bool) (cursorPos : Z) (w : World) :
  let r := run charCount newText isHtml cursorPos w in
  let typed := snippetToPlainText htmlToPlainText newText isHtml in
  exists evs,
    Forall (engineEvent delayBetweenKeystrokesMs typed newText isHtml) evs /\
    trace (snd r)
    = trace w ++ [EvSetKeyboardHookEnabled false] ++ evs
      ++ match fst r with
         | Raised OtherException => []
         | _ => [EvSetKeyboardHookEnabled (keyboardHookEnabled w)]
         end.
Proof.
  intros r typed.
  set (p := engineEvent delayBetweenKeystrokesMs typed newText isHtml).
  assert (Hmod : admitsModifiers p).
  { intros key Hk. split; now apply engineKeys_modifier. }
  assert (Hkey : forall key, In key [VK_BACK; VK_V; VK_RETURN; VK_LEFT] ->
                 admitsKey p key).
  { intros key Hk. split; apply in_app_iff; now right. }
  destruct (emitsAt_substitutionBody p isSensitiveApplication htmlToPlainText
              delayBetweenKeystrokesMs charCount newText isHtml cursorPos
              (step (EvSetKeyboardHookEnabled false) w) Hmod)
    as (evs & k & Hw1 & Hevs).
  { apply Hkey. now left. }
  { apply Hkey. now do 3 right; left. }
  { destruct (isSensitiveApplication _).
    - split; [apply Hkey; now do 2 right; left|]. split.
      + intros c Hc Hne. now split.
      + intros Hpos. now split.
    - split; [exact I|]. split; [now destruct isHtml|].
      split; [apply Hkey; now right; left | now split]. }
  exists evs. split; [exact Hevs|].
  unfold r. rewrite performTextSubstitution_finishCall.
  destruct (body charCount newText isHtml cursorPos _) as [[[]|[]] w1];
    cbn [snd fst finishCall] in *; rewrite Hw1;
    cbn [trace step]; rewrite trace_emitted; cbn [trace step];
    rewrite <- ?app_assoc; cbn [app]; rewrite ?app_nil_r; reflexivity.
Qed.

Lemma emitsAt_call (p : Event -> Prop) charCount newText isHtml cursorPos w :
  (forall enabled, p (EvSetKeyboardHookEnabled enabled)) ->
  emitsAt p (body charCount newText isHtml cursorPos)
    (step (EvSetKeyboardHookEnabled false) w) ->
  emitsAt p (run charCount newText isHtml cursorPos) w.
Proof.
  intros Hhook (evs & k & Hw1 & Hevs). unfold emitsAt.
  rewrite performTextSubstitution_finishCall.
  change (step (EvSetKeyboardHookEnabled false) w)
    with (replay [EvSetKeyboardHookEnabled false] w) in Hw1.
  rewrite dropFaults_replay, <- replay_app in Hw1.
  destruct (body charCount newText isHtml cursorPos _) as [[[]|[]] w1];
    cbn [snd finishCall] in *.
  - exists (([EvSetKeyboardHookEnabled false] ++ evs)
            ++ [EvSetKeyboardHookEnabled (keyboardHookEnabled w)]), k.
    split; [now rewrite replay_app, <- Hw1|].
    apply Forall_app. split; [|now constructor].
    apply Forall_app. split; [now constructor | exact Hevs].
  - exists (([EvSetKeyboardHookEnabled false] ++ evs)
            ++ [EvSetKeyboardHookEnabled (keyboardHookEnabled w)]), k.
    split; [now rewrite replay_app, <- Hw1|].
    apply Forall_app. split; [|now constructor].
    apply Forall_app. split; [now constructor | exact Hevs].
  - exists ([EvSetKeyboardHookEnabled false] ++ evs), k.
    split; [exact Hw1|].
    apply Forall_app. split; [now constructor | exact Hevs].
Qed.

(** X12. For a sensitive application the clipboard is out of reach of the call
    whatever fails: no backup, no overwriting, no timer, and the clipboard,
    its backup and the pending timers are the same after the call as
    before, whether it returns or raises. *)
Theorem sensitive_call_never_touches_clipboard (charCount : Z)
    (newText : QString) (isHtml : bool) (cursorPos : Z) (w : World) :
  isSensitiveApplication (foregroundName w) = true ->
  let r := run charCount newText isHtml cursorPos w in
  clipboardState (snd r) = clipboardState w /\
  exists evs,
    trace (snd r) = trace w ++ evs /\
    Forall (fun e => isClipboardEvent e = false) evs.
Proof.
  intros Hsens r.
  destruct (emitsAt_call (fun e => isClipboardEvent e = false)
              charCount newText isHtml cursorPos w)
    as (evs & k & Hw1 & Hevs).
  { reflexivity. }
  { apply emitsAt_substitutionBody.
    - intros key _. now split.
    - now split.
    - now split.
    - change (foregroundName (step (EvSetKeyboardHookEnabled false) w))
        with (foregroundName w).
      rewrite Hsens. repeat split. }
  fold r in Hw1. rewrite Hw1. split.
  - now apply clipboardState_emitted.
  - exists evs. split; [apply trace_emitted | exact Hevs].
Qed.

(** X13. For an application that is not sensitive the call never synthesizes a
    Unicode character event, never presses Return and never sleeps,
    whatever fails. *)
Theorem pasting_call_never_types (charCount : Z) (newText : QString)
    (isHtml : bool) (cursorPos : Z) (w : World) :
  isSensitiveApplication (foregroundName w) = false ->
  exists evs,
    trace (snd (run charCount newText isHtml cursorPos w)) = trace w ++ evs /\
    Forall (fun e => isUnicodeEvent e = false /\ isSleepEvent e = false /\
                     isKeyDownOf VK_RETURN e = false) evs.
Proof.
  intros Hsens.
  assert (Hmod : modifierBlind (isKeyDownOf VK_RETURN)).
  { apply modifierBlind_keyDownOf. vm_compute. intuition discriminate. }
  destruct (emitsAt_call (fun e => isUnicodeEvent e = false /\
                                   isSleepEvent e = false /\
                                   isKeyDownOf VK_RETURN e = false)
              charCount newText isHtml cursorPos w)
    as (evs & k & Hw1 & Hevs).
  { now repeat split. }
  { apply emitsAt_substitutionBody.
    - intros key Hk. destruct (Hmod key Hk) as [Hd Hu]. now repeat split.
    - now repeat split.
    - now repeat split.
    - change (foregroundName (step (EvSetKeyboardHookEnabled false) w))
        with (foregroundName w).
      rewrite Hsens. repeat split; now destruct isHtml. }
  exists evs. rewrite Hw1. split; [apply trace_emitted | exact Hevs].
Qed.

End AnyFailure.

(** A sensitive application, "hi" to type, and the release of Shift for the
    first character raising an [xmilib::Exception]: the clipboard is as
    before. *)
Lemma sensitive_call_never_touches_clipboard_witness :
  let w := idleWorld true {[VK_LSHIFT]} [Some Exception] in
  let r := performTextSubstitution (fun _ => true) (fun s => s) 0
             0 [0x68; 0x69] false (-1) w in
  fst r = Raised Exception /\ clipboardState (snd r) = clipboardState w.
Proof.
  intros w r. split; [vm_compute; reflexivity|].
  exact (proj1 (sensitive_call_never_touches_clipboard (fun _ => true)
                  (fun s => s) 0 0 [0x68; 0x69] false (-1) w eq_refl)).
Defined.

Lemma pasting_call_never_types_witness :
  exists evs,
    trace (snd (performTextSubstitution (fun _ => false) (fun s => s) 5
                  1 [0x68; 0x0a] false 0 (idleWorld true ∅ [])))
    = [] ++ evs /\
    Forall (fun e => isUnicodeEvent e = false /\ isSleepEvent e = false /\
                     isKeyDownOf VK_RETURN e = false) evs.
Proof.
  exact (pasting_call_never_types (fun _ => false) (fun s => s) 5
           1 [0x68; 0x0a] false 0 (idleWorld true ∅ []) eq_refl).
Defined.

(** ** What a failure leaves behind *)

Lemma prim_cases e w :
  (exists x, prim e w = (Raised x, popFault w)) \/
  (exists k, prim e w = (Returned tt, step e (dropFaults k w))).
Proof.
  unfold prim. destruct (pendingFaults w) as [|[x|] faults].
  - right. now exists 0%nat.
  - left. now exists x.
  - right. now exists 1%nat.
Qed.

Lemma clipboardState_dropFaults k w :
  clipboardState (dropFaults k w) = clipboardState w.
Proof. now destruct (dropFaults_fields k w) as (_ & _ & -> & _). Qed.

Lemma emitsOnly_pasteKeys :
  emitsOnly (fun e => isClipboardEvent e = false)
    (pressedModifiers <- backupAndReleaseModifierKeys ;;
     (synthesizeKeyDown VK_LCONTROL ;; synthesizeKeyDownAndUp VK_V ;;
      synthesizeKeyUp VK_LCONTROL) ;;
     restoreModifierKeys pressedModifiers).
Proof.
  apply emitsOnly_bracket; [intros key _; now split|].
  apply emitsOnly_controlV; [intros key _; now split | now split].
Qed.

(** X14. The paste strategy schedules the restoration of the clipboard last:
    when it returns, the backup holds the former content, the clipboard
    holds the replacement and exactly one restoration is pending; when it
    raises, at whatever step, no restoration has been scheduled, although
    the clipboard may already hold the replacement. *)
Theorem pasteSnippet_outcome (newText : QString) (isHtml : bool) (w : World) :
  let r := pasteSnippet newText isHtml w in
  (fst r = Returned tt ->
   clipboardState (snd r)
   = (clipDataOf newText isHtml, Some (clipboard w),
      timers w ++ [(1000, RestoreClipboard)])) /\
  (forall e, fst r = Raised e ->
   timers (snd r) = timers w /\
   (clipboard (snd r) = clipboard w \/
    clipboard (snd r) = clipDataOf newText isHtml)).
Proof.
  intros r. unfold r. rewrite pasteSnippet_shape. clear r.
  match goal with |- context [?m w] => destruct (m w) as [o wf] eqn:Hr end.
  cbn [fst snd].
  unfold bind at 1 in Hr. unfold backupClipboard in Hr.
  destruct (prim_cases EvBackupClipboard w) as [(x & Hp) | (k1 & Hp)];
    rewrite Hp in Hr; clear Hp.
  { injection Hr as <- <-. split; [discriminate|].
    intros e _. split; [reflexivity | now left]. }
  set (w1 := step EvBackupClipboard (dropFaults k1 w)) in Hr.
  assert (H1 : clipboardState w1 = (clipboard w, Some (clipboard w), timers w)).
  { pose proof (clipboardState_dropFaults k1 w) as H.
    pose proof (f_equal snd H) as Ht.
    pose proof (f_equal (fun t => fst (fst t)) H) as Hc.
    cbn [fst snd clipboardState] in Ht, Hc.
    unfold clipboardState, w1. cbn [step clipboard clipboardBackup timers].
    now rewrite Ht, Hc. }
  unfold bind at 1 in Hr.
  assert (Hset : (exists x, (if isHtml then setHtml newText else setText newText) w1
                            = (Raised x, popFault w1)) \/
                 (exists w2, (if isHtml then setHtml newText else setText newText) w1
                             = (Returned tt, w2) /\
                             clipboardState w2
                             = (clipDataOf newText isHtml, Some (clipboard w),
                                timers w))).
  { pose proof (f_equal snd H1) as Ht1.
    pose proof (f_equal (fun t => snd (fst t)) H1) as Hb1.
    cbn [fst snd clipboardState] in Ht1, Hb1.
    destruct isHtml; unfold setHtml, setText.
    - destruct (prim_cases (EvSetHtml newText) w1) as [(x & ->) | (k2 & ->)];
        [left; now exists x|right].
      eexists. split; [reflexivity|].
      pose proof (clipboardState_dropFaults k2 w1) as H.
      pose proof (f_equal snd H) as Ht.
      pose proof (f_equal (fun t => snd (fst t)) H) as Hb.
      cbn [fst snd clipboardState] in Ht, Hb.
      unfold clipboardState. cbn [step clipboard clipboardBackup timers].
      now rewrite Ht, Hb, Ht1, Hb1.
    - destruct (prim_cases (EvSetText newText) w1) as [(x & ->) | (k2 & ->)];
        [left; now exists x|right].
      eexists. split; [reflexivity|].
      pose proof (clipboardState_dropFaults k2 w1) as H.
      pose proof (f_equal snd H) as Ht.
      pose proof (f_equal (fun t => snd (fst t)) H) as Hb.
      cbn [fst snd clipboardState] in Ht, Hb.
      unfold clipboardState. cbn [step clipboard clipboardBackup timers].
      now rewrite Ht, Hb, Ht1, Hb1. }
  destruct Hset as [(x & Hp) | (w2 & Hp & H2)]; rewrite Hp in Hr; clear Hp.
  { injection Hr as <- <-. split; [discriminate|]. intros e _.
    pose proof (f_equal snd H1) as Ht.
    pose proof (f_equal (fun t => fst (fst t)) H1) as Hc.
    cbn [fst snd clipboardState] in Ht, Hc.
    split; [exact Ht | left; exact Hc]. }
  unfold bind at 1 in Hr.
  destruct (emitsOnly_pasteKeys w2) as (evs & k3 & Hw3 & Hevs).
  destruct ((pressedModifiers <- backupAndReleaseModifierKeys ;;
             (synthesizeKeyDown VK_LCONTROL ;; synthesizeKeyDownAndUp VK_V ;;
              synthesizeKeyUp VK_LCONTROL) ;;
             restoreModifierKeys pressedModifiers) w2) as [[[]|x] w3];
    cbn [snd] in Hw3.
  2:{ injection Hr as <- <-. split; [discriminate|]. intros e _. rewrite Hw3.
      pose proof (clipboardState_emitted evs k3 w2 Hevs) as H3. rewrite H2 in H3.
      pose proof (f_equal snd H3) as Ht.
      pose proof (f_equal (fun t => fst (fst t)) H3) as Hc.
      cbn [fst snd clipboardState] in Ht, Hc. split; [exact Ht | now right]. }
  assert (H3 : clipboardState w3
               = (clipDataOf newText isHtml, Some (clipboard w), timers w)).
  { rewrite Hw3, <- H2. now apply clipboardState_emitted. }
  pose proof (f_equal snd H3) as Ht3.
  pose proof (f_equal (fun t => fst (fst t)) H3) as Hc3.
  pose proof (f_equal (fun t => snd (fst t)) H3) as Hb3.
  cbn [fst snd clipboardState] in Ht3, Hc3, Hb3.
  unfold singleShot in Hr.
  destruct (prim_cases (EvSingleShot 1000 RestoreClipboard) w3)
    as [(x & Hp) | (k4 & Hp)]; rewrite Hp in Hr; clear Hp;
    injection Hr as <- <-.
  - split; [discriminate|]. intros e _. split; [exact Ht3 | right; exact Hc3].
  - split; [|discriminate]. intros _.
    pose proof (clipboardState_dropFaults k4 w3) as H4.
    pose proof (f_equal snd H4) as Ht.
    pose proof (f_equal (fun t => fst (fst t)) H4) as Hc.
    pose proof (f_equal (fun t => snd (fst t)) H4) as Hb.
    cbn [fst snd clipboardState] in Ht, Hc, Hb.
    unfold clipboardState. cbn [step clipboard clipboardBackup timers].
    now rewrite Ht, Hc, Hb, Ht3, Hc3, Hb3.
Qed.

(** The paste of "hi" with the key presses failing: the clipboard holds the
    replacement and nothing will restore it. *)
Lemma pasteSnippet_outcome_witness :
  let w := idleWorld true ∅ [None; None; Some Exception] in
  let r := pasteSnippet [0x68; 0x69] false w in
  fst r = Raised Exception /\
  timers (snd r) = [] /\
  clipboard (snd r) = ClipText [0x68; 0x69].
Proof.
  intros w r.
  destruct (pasteSnippet_outcome [0x68; 0x69] false w) as [_ Hfail].
  destruct (Hfail Exception eq_refl) as [Ht _].
  split; [reflexivity|]. split; [exact Ht | reflexivity].
Defined.

Lemma pendingFaults_dropFaults n : forall w tl,
  pendingFaults w = repeat None n ++ tl ->
  pendingFaults (dropFaults n w) = tl.
Proof.
  induction n as [|n IH]; intros w tl Hw; [exact Hw|].
  cbn [dropFaults]. apply IH. cbn [popFault pendingFaults].
  rewrite Hw. reflexivity.
Qed.

(** The capture when exactly the fallible calls it makes succeed. *)
Lemma releaseLoop_nones keys : forall result w tl,
  List.NoDup keys ->
  let down := List.filter (fun key => bool_decide (key ∈ pressed w)) keys in
  pendingFaults w = repeat None (length down) ++ tl ->
  tl <> [] ->
  releaseLoop keys result w
  = (Returned (result ++ down),
     replay (map EvKeyUp down) (dropFaults (length down) w)).
Proof.
  induction keys as [|key keys IH]; intros result w tl Hnd down Hw Htl.
  - cbn. now rewrite app_nil_r.
  - inversion Hnd as [|? ? Hnotin Hnd']; subst.
    cbn [releaseLoop]. unfold bind, GetKeyState. unfold down in *.
    cbn [List.filter] in *.
    destruct (decide (key ∈ pressed w)) as [Hin|Hout].
    + rewrite bool_decide_eq_true_2 in * by exact Hin.
      change (-128 <? 0) with true. cbv iota.
      cbn [length repeat app] in Hw.
      unfold synthesizeKeyUp, prim. rewrite Hw.
      set (w1 := step (EvKeyUp key) (popFault w)).
      assert (Hsame :
        List.filter (fun k => bool_decide (k ∈ pressed w1)) keys =
        List.filter (fun k => bool_decide (k ∈ pressed w)) keys).
      { apply filter_ext_in. intros k Hk. apply bool_decide_ext.
        unfold w1. simpl.
        assert (k <> key) by (intros ->; contradiction). set_solver. }
      pose proof (IH (result ++ [key]) w1 tl Hnd') as IH1.
      cbv zeta in IH1. rewrite Hsame in IH1.
      rewrite IH1; [| unfold w1; cbn [step popFault pendingFaults];
                      now rewrite Hw | exact Htl].
      cbn [map length dropFaults]. rewrite replay_cons, <- app_assoc.
      unfold w1.
      change (step (EvKeyUp key) (popFault w))
        with (replay [EvKeyUp key] (popFault w)).
      rewrite dropFaults_replay. reflexivity.
    + rewrite bool_decide_eq_false_2 in * by exact Hout.
      change (0 <? 0) with false. cbv iota.
      now apply (IH result w tl Hnd').
Qed.

Lemma held_released w :
  forall key, In key modifierKeys ->
    key ∉ pressed w ∖ (list_to_set (held (pressed w)) : gset Z).
Proof.
  intros key Hk [Hin Hnot]%elem_of_difference.
  apply Hnot. now apply held_elem.
Qed.

Section FailedCharacter.

Variable isSensitiveApplication : QString -> bool.
Variable htmlToPlainText : QString -> QString.
Variable delayBetweenKeystrokesMs : Z.

Local Abbreviation run :=
  (performTextSubstitution isSensitiveApplication htmlToPlainText
     delayBetweenKeystrokesMs).

Lemma typeChar_fails c e tl w :
  (c =? LineFeed) = false ->
  pendingFaults w = repeat None (length (held (pressed w))) ++ Some e :: tl ->
  typeChar delayBetweenKeystrokesMs c w
  = (Raised e,
     popFault (replay (map EvKeyUp (held (pressed w)))
                 (dropFaults (length (held (pressed w))) w))).
Proof.
  intros Hc Hw. unfold typeChar. rewrite Hc.
  unfold bind at 1. unfold backupAndReleaseModifierKeys.
  pose proof (releaseLoop_nones modifierKeys [] w (Some e :: tl)
                modifierKeys_NoDup Hw ltac:(discriminate)) as Hrel.
  cbv zeta in Hrel. fold (held (pressed w)) in Hrel. rewrite Hrel.
  unfold bind at 1. unfold synthesizeUnicodeKeyDownAndUp, prim.
  rewrite replay_pendingFaults, (pendingFaults_dropFaults _ _ _ Hw).
  reflexivity.
Qed.

(** X15. When the synthesis of the first character fails in front of a sensitive
    application, the call raises that exception and the modifiers released
    for the character are not pressed again: none of the eight tracked
    modifiers is down when the call is over, even if the user still holds
    some. *)
Theorem character_failure_leaves_modifiers_released (charCount : Z)
    (newText : QString) (isHtml : bool) (cursorPos : Z) (w : World)
    (c : QChar) (rest : QString) (e : exn) (tl : list (option exn)) :
  charCount <= 0 ->
  isSensitiveApplication (foregroundName w) = true ->
  snippetToPlainText htmlToPlainText newText isHtml = c :: rest ->
  c <> LineFeed ->
  pendingFaults w = repeat None (length (held (pressed w))) ++ Some e :: tl ->
  let r := run charCount newText isHtml cursorPos w in
  fst r = Raised e /\
  (forall key, In key modifierKeys -> key ∉ pressed (snd r)) /\
  trace (snd r)
  = trace w ++ [EvSetKeyboardHookEnabled false]
    ++ map EvKeyUp (held (pressed w))
    ++ match e with
       | Exception => [EvSetKeyboardHookEnabled (keyboardHookEnabled w)]
       | OtherException => []
       end.
Proof.
  intros Hcount Hsens Htyped Hc Hw r.
  set (entry := step (EvSetKeyboardHookEnabled false) w).
  assert (Hbody :
    substitutionBody isSensitiveApplication htmlToPlainText
      delayBetweenKeystrokesMs charCount newText isHtml cursorPos entry
    = (Raised e,
       popFault (replay (map EvKeyUp (held (pressed w)))
                   (dropFaults (length (held (pressed w))) entry)))).
  { unfold substitutionBody.
    replace (qMax charCount 0) with 0 by (rewrite qMax_max; lia).
    change (synthesizeBackspaces 0) with (ret (A := unit) tt).
    unfold bind at 1. unfold ret.
    unfold bind at 1. rewrite getActiveExecutableFileName_pure.
    change (foregroundName entry) with (foregroundName w). rewrite Hsens.
    cbn [negb]. unfold bind at 1. unfold typeSnippet. rewrite Htyped.
    cbn [forEach]. unfold bind at 1.
    rewrite (typeChar_fails c e tl entry);
      [reflexivity | now apply Z.eqb_neq | exact Hw]. }
  unfold r. rewrite performTextSubstitution_finishCall. fold entry.
  rewrite Hbody.
  assert (Hpressed : forall w', pressed (popFault w') = pressed w')
    by reflexivity.
  assert (Hrel : pressed (replay (map EvKeyUp (held (pressed w)))
                            (dropFaults (length (held (pressed w))) entry))
                 = pressed w ∖ list_to_set (held (pressed w))).
  { rewrite replay_keyUps.
    now destruct (dropFaults_fields (length (held (pressed w))) entry)
      as (_ & -> & _). }
  assert (Htrace : trace (replay (map EvKeyUp (held (pressed w)))
                            (dropFaults (length (held (pressed w))) entry))
                   = trace w ++ [EvSetKeyboardHookEnabled false]
                     ++ map EvKeyUp (held (pressed w))).
  { rewrite trace_emitted. unfold entry. cbn [step trace].
    now rewrite <- app_assoc. }
  destruct e; cbn [finishCall fst snd].
  - split; [reflexivity|]. split.
    + intros key Hk. cbn [step pressed]. rewrite Hpressed, Hrel.
      now apply held_released.
    + cbn [step trace popFault]. rewrite Htrace.
      now rewrite <- !app_assoc.
  - split; [reflexivity|]. split.
    + intros key Hk. rewrite Hpressed, Hrel. now apply held_released.
    + cbn [trace popFault]. rewrite Htrace. now rewrite app_nil_r.
Qed.

End FailedCharacter.

(** Shift is held, "hi" is to be typed, the release of Shift succeeds and
    the synthesis of "h" raises: Shift stays released. *)
Lemma character_failure_leaves_modifiers_released_witness :
  let w := idleWorld true {[VK_LSHIFT]} [None; Some Exception] in
  let r := performTextSubstitution (fun _ => true) (fun s => s) 0
             0 [0x68; 0x69] false (-1) w in
  fst r = Raised Exception /\ (VK_LSHIFT ∉ pressed (snd r)) /\
  keyboardHookEnabled (snd r) = true.
Proof.
  intros w r.
  destruct (character_failure_leaves_modifiers_released (fun _ => true)
              (fun s => s) 0 0 [0x68; 0x69] false (-1) w 0x68 [0x69]
              Exception [] ltac:(lia) eq_refl eq_refl ltac:(discriminate)
              eq_refl) as (Hr & Hmods & _).
  split; [exact Hr|]. split; [|reflexivity].
  apply Hmods. vm_compute. tauto.
Defined.

(** ** More on calls that do not fail *)

Lemma held_same_modifiers P Q :
  held P = held Q ->
  forall key, In key modifierKeys -> (key ∈ P <-> key ∈ Q).
Proof.
  intros Heq key Hk.
  assert (HP : forall R, In key (held R) <-> key ∈ R).
  { intros R. unfold held. rewrite filter_In, bool_decide_eq_true. tauto. }
  rewrite <- (HP P), <- (HP Q), Heq. tauto.
Qed.

Lemma countEvents_typeEvents_sum p delayMs P text :
  modifierBlind p ->
  countEvents p (typeEvents delayMs (held P) text)
  = countEvents p
      (flat_map (fun c => if c =? LineFeed then keyDownAndUp VK_RETURN
                          else [EvUnicodeKeyDownAndUp c]) text)
    + Z.of_nat (length text) * countEvents p (waitEvents delayMs).
Proof.
  intros Hp. unfold typeEvents.
  induction text as [|c text IH]; [reflexivity|].
  cbn [flat_map length]. rewrite !countEvents_app, IH.
  unfold typeCharEvents. rewrite countEvents_app, countEvents_bracket by exact Hp.
  lia.
Qed.

Lemma countEvents_characters p text :
  countEvents p
    (flat_map (fun c => if c =? LineFeed then keyDownAndUp VK_RETURN
                        else [EvUnicodeKeyDownAndUp c]) text)
  = Z.of_nat (length (List.filter (fun c => c =? LineFeed) text))
    * countEvents p (keyDownAndUp VK_RETURN)
    + countEvents p
        (map EvUnicodeKeyDownAndUp
           (List.filter (fun c => negb (c =? LineFeed)) text)).
Proof.
  induction text as [|c text IH]; [reflexivity|].
  cbn [flat_map List.filter]. rewrite countEvents_app, IH.
  unfold QString, QChar in *.
  destruct (c =? LineFeed); cbn [negb length map].
  - rewrite Nat2Z.inj_succ. lia.
  - assert (Hcons : forall l, countEvents p (EvUnicodeKeyDownAndUp c :: l)
                               = countEvents p [EvUnicodeKeyDownAndUp c]
                                 + countEvents p l)
      by (intros l; apply (countEvents_app p [EvUnicodeKeyDownAndUp c] l)).
    rewrite (Hcons (map _ _)). lia.
Qed.

Lemma countEvents_all p evs :
  (forall e, In e evs -> p e = true) ->
  countEvents p evs = Z.of_nat (length evs).
Proof.
  intros H. unfold countEvents. f_equal.
  induction evs as [|e evs IH]; [reflexivity|].
  cbn [List.filter length]. rewrite (H e) by now left.
  cbn [length]. f_equal. apply IH. intros e' He'. apply H. now right.
Qed.

Section Successful.

Variable isSensitiveApplication : QString -> bool.
Variable htmlToPlainText : QString -> QString.
Variable delayBetweenKeystrokesMs : Z.

Local Abbreviation run :=
  (performTextSubstitution isSensitiveApplication htmlToPlainText
     delayBetweenKeystrokesMs).
Local Abbreviation eventsIn :=
  (callEvents isSensitiveApplication htmlToPlainText delayBetweenKeystrokesMs).

(** X16. A call whose synthesis succeeds returns normally and leaves each of
    the eight tracked modifiers as it found it, down if it was down and up
    if it was up, with the hook in its former state. *)
Theorem successful_call_restores_modifiers (charCount : Z)
    (newText : QString) (isHtml : bool) (cursorPos : Z) (w : World) :
  pendingFaults w = [] ->
  let r := run charCount newText isHtml cursorPos w in
  fst r = Returned tt /\
  held (pressed (snd r)) = held (pressed w) /\
  (forall key, In key modifierKeys ->
     (key ∈ pressed (snd r) <-> key ∈ pressed w)) /\
  keyboardHookEnabled (snd r) = keyboardHookEnabled w /\
  pendingFaults (snd r) = [].
Proof.
  intros Hw r.
  pose proof (yields_performTextSubstitution isSensitiveApplication
                htmlToPlainText delayBetweenKeystrokesMs
                charCount newText isHtml cursorPos w Hw) as Hrun.
  pose proof (performs_substitutionBody isSensitiveApplication
                htmlToPlainText delayBetweenKeystrokesMs
                charCount newText isHtml cursorPos
                (step (EvSetKeyboardHookEnabled false) w) Hw) as [_ Hkeep].
  change (eventsIn (step (EvSetKeyboardHookEnabled false) w))
    with (eventsIn w) in Hkeep.
  unfold yields in Hrun. unfold r. rewrite Hrun. cbn [fst snd].
  assert (Hheld :
    held (pressed
            (replay ([EvSetKeyboardHookEnabled false]
                     ++ eventsIn w charCount newText isHtml cursorPos
                     ++ [EvSetKeyboardHookEnabled (keyboardHookEnabled w)]) w))
    = held (pressed w)).
  { rewrite !replay_app. exact Hkeep. }
  split; [reflexivity|]. split; [exact Hheld|].
  split; [now apply held_same_modifiers|]. split.
  - rewrite !replay_app. reflexivity.
  - now rewrite replay_pendingFaults.
Qed.

(** X17. In front of a sensitive application a call whose synthesis succeeds
    synthesizes one event per character of the typed text: a Unicode event
    for each character other than line feed and a press of Return for each
    line feed; it sleeps once per character when the configured delay is
    positive and never otherwise. *)
Theorem typing_event_counts (charCount : Z) (newText : QString)
    (isHtml : bool) (cursorPos : Z) (w : World) :
  pendingFaults w = [] ->
  isSensitiveApplication (foregroundName w) = true ->
  let typed := snippetToPlainText htmlToPlainText newText isHtml in
  let lineFeeds :=
    Z.of_nat (length (List.filter (fun c => c =? LineFeed) typed)) in
  let whole :=
    [EvSetKeyboardHookEnabled false]
    ++ eventsIn w charCount newText isHtml cursorPos
    ++ [EvSetKeyboardHookEnabled (keyboardHookEnabled w)] in
  yields (run charCount newText isHtml cursorPos) w tt whole /\
  countEvents (isKeyDownOf VK_RETURN) whole = lineFeeds /\
  countEvents isUnicodeEvent whole = Z.of_nat (length typed) - lineFeeds /\
  countEvents isSleepEvent whole
  = if delayBetweenKeystrokesMs >? 0 then Z.of_nat (length typed) else 0.
Proof.
  intros Hw Hsens typed lineFeeds whole.
  split; [now apply yields_performTextSubstitution|].
  assert (Hret : modifierBlind (isKeyDownOf VK_RETURN)).
  { apply modifierBlind_keyDownOf. vm_compute. intuition discriminate. }
  assert (Huni : modifierBlind isUnicodeEvent) by (intros k _; now split).
  assert (Hsl : modifierBlind isSleepEvent) by (intros k _; now split).
  assert (Hsplit : Z.of_nat (length typed)
                   = Z.of_nat (length (List.filter (fun c => c =? LineFeed) typed))
                     + Z.of_nat (length (List.filter
                                           (fun c => negb (c =? LineFeed)) typed))).
  { clear. induction typed as [|c l IH]; [reflexivity|].
    cbn [List.filter]. destruct (c =? LineFeed); cbn [negb length]; lia. }
  unfold whole, callEvents, substitutionEvents, deliverEvents.
  rewrite Hsens. fold typed. rewrite !countEvents_app.
  rewrite !countEvents_eraseEvents by reflexivity.
  rewrite !countEvents_reposition by assumption.
  rewrite !countEvents_typeEvents_sum, !countEvents_characters by assumption.
  rewrite (countEvents_none (isKeyDownOf VK_RETURN) (map _ _))
    by (intros e [c [<- _]]%in_map_iff; reflexivity).
  rewrite (countEvents_all isUnicodeEvent (map _ _))
    by (intros e [c [<- _]]%in_map_iff; reflexivity).
  rewrite (countEvents_none isSleepEvent (map _ _))
    by (intros e [c [<- _]]%in_map_iff; reflexivity).
  rewrite length_map.
  change (countEvents (isKeyDownOf VK_RETURN) (keyDownAndUp VK_LEFT)) with 0.
  change (countEvents isUnicodeEvent (keyDownAndUp VK_LEFT)) with 0.
  change (countEvents isSleepEvent (keyDownAndUp VK_LEFT)) with 0.
  change (countEvents (isKeyDownOf VK_RETURN) (keyDownAndUp VK_RETURN)) with 1.
  change (countEvents isUnicodeEvent (keyDownAndUp VK_RETURN)) with 0.
  change (countEvents isSleepEvent (keyDownAndUp VK_RETURN)) with 0.
  rewrite (countEvents_waitEvents (isKeyDownOf VK_RETURN)) by reflexivity.
  rewrite (countEvents_waitEvents isUnicodeEvent) by reflexivity.
  unfold lineFeeds, waitEvents. unfold countEvents at 1 2 3 4 5 6.
  cbn [List.filter length isKeyDownOf isUnicodeEvent isSleepEvent].
  destruct (cursorPos >=? 0), (delayBetweenKeystrokesMs >? 0);
    unfold countEvents; cbn [List.filter length isSleepEvent];
    repeat split; lia.
Qed.

(** X18. For an application that is not sensitive a call whose synthesis succeeds
    presses V exactly once, whatever the length of the replacement, and
    performs exactly three clipboard operations. *)
Theorem paste_event_counts (charCount : Z) (newText : QString)
    (isHtml : bool) (cursorPos : Z) (w : World) :
  pendingFaults w = [] ->
  isSensitiveApplication (foregroundName w) = false ->
  let whole :=
    [EvSetKeyboardHookEnabled false]
    ++ eventsIn w charCount newText isHtml cursorPos
    ++ [EvSetKeyboardHookEnabled (keyboardHookEnabled w)] in
  yields (run charCount newText isHtml cursorPos) w tt whole /\
  countEvents (isKeyDownOf VK_V) whole = 1 /\
  countEvents isClipboardEvent whole = 3.
Proof.
  intros Hw Hsens whole.
  split; [now apply yields_performTextSubstitution|].
  assert (Hv : modifierBlind (isKeyDownOf VK_V)).
  { apply modifierBlind_keyDownOf. vm_compute. intuition discriminate. }
  unfold whole, callEvents, substitutionEvents, deliverEvents.
  rewrite Hsens. rewrite !countEvents_app.
  rewrite !countEvents_eraseEvents by reflexivity.
  rewrite !countEvents_reposition by (exact Hv || apply modifierBlind_clipboard).
  rewrite !countEvents_pasteEvents by (exact Hv || apply modifierBlind_clipboard).
  change (countEvents (isKeyDownOf VK_V) (keyDownAndUp VK_LEFT)) with 0.
  change (countEvents isClipboardEvent (keyDownAndUp VK_LEFT)) with 0.
  destruct (cursorPos >=? 0), isHtml; rewrite ?Z.mul_0_r; split; reflexivity.
Qed.

(** X19. In front of a sensitive application, when the replacement is plain text
    or its rendering holds no image placeholder, the Left-arrow presses are
    counted on exactly the text that was typed. *)
Theorem reposition_matches_typed_text (charCount : Z) (newText : QString)
    (isHtml : bool) (cursorPos : Z) (w : World) :
  pendingFaults w = [] ->
  isSensitiveApplication (foregroundName w) = true ->
  0 <= cursorPos < 2 ^ 31 ->
  (isHtml = true -> ~ In kObjectReplacementChar (htmlToPlainText newText)) ->
  let typed := snippetToPlainText htmlToPlainText newText isHtml in
  let snapshot := held (pressed w) in
  typed = renderedPlainText htmlToPlainText newText isHtml /\
  yields (run charCount newText isHtml cursorPos) w tt
    ([EvSetKeyboardHookEnabled false]
     ++ eraseEvents charCount
     ++ typeEvents delayBetweenKeystrokesMs snapshot typed
     ++ leftEvents snapshot
          (Z.max 0 (printableCharacterCount typed - cursorPos))
     ++ [EvSetKeyboardHookEnabled (keyboardHookEnabled w)]).
Proof.
  intros Hw Hsens Hpos Himg typed snapshot.
  assert (Hsame : typed = renderedPlainText htmlToPlainText newText isHtml).
  { unfold typed, snippetToPlainText, renderedPlainText.
    destruct isHtml; cbn [negb]; [|reflexivity].
    unfold remove. specialize (Himg eq_refl).
    induction (htmlToPlainText newText) as [|c l IH]; [reflexivity|].
    cbn [List.filter].
    destruct (Z.eqb_spec c kObjectReplacementChar) as [->|_];
      [elim Himg; now left|].
    cbn [negb]. f_equal. apply IH. intros H. apply Himg. now right. }
  split; [exact Hsame|].
  pose proof (yields_performTextSubstitution isSensitiveApplication
                htmlToPlainText delayBetweenKeystrokesMs
                charCount newText isHtml cursorPos w Hw) as Hrun.
  unfold callEvents, substitutionEvents in Hrun.
  rewrite Hsens in Hrun. unfold deliverEvents, repositionEvents in Hrun.
  destruct (Z.geb_spec cursorPos 0) as [_|Hlt]; [|lia].
  rewrite leftCount_max in Hrun by lia. rewrite <- Hsame in Hrun.
  eapply yields_eq; [exact Hrun|]. now rewrite <- !app_assoc.
Qed.

End Successful.

(** Shift and V are down before "hi" is pasted; Shift is down afterwards. *)
Lemma successful_call_restores_modifiers_witness :
  let w := idleWorld true {[VK_LSHIFT; VK_V]} [] in
  let r := performTextSubstitution (fun _ => false) (fun s => s) 0
             1 [0x68; 0x69] false 0 w in
  fst r = Returned tt /\ held (pressed (snd r)) = [VK_LSHIFT].
Proof.
  intros w r.
  destruct (successful_call_restores_modifiers (fun _ => false) (fun s => s) 0
              1 [0x68; 0x69] false 0 w eq_refl) as (Hr & Hheld & _).
  split; [exact Hr | exact Hheld].
Defined.

(** "h", line feed, "i" typed with a delay of 5 ms: one Return, two Unicode
    events, three sleeps. *)
Lemma typing_event_counts_witness :
  let whole :=
    [EvSetKeyboardHookEnabled false]
    ++ callEvents (fun _ => true) (fun s => s) 5 (idleWorld true ∅ [])
         0 [0x68; 0x0a; 0x69] false (-1)
    ++ [EvSetKeyboardHookEnabled true] in
  countEvents (isKeyDownOf VK_RETURN) whole = 1 /\
  countEvents isUnicodeEvent whole = 3 - 1 /\
  countEvents isSleepEvent whole = 3.
Proof.
  intros whole.
  destruct (typing_event_counts (fun _ => true) (fun s => s) 5
              0 [0x68; 0x0a; 0x69] false (-1) (idleWorld true ∅ [])
              eq_refl eq_refl) as (_ & Hret & Huni & Hsleep).
  split; [exact Hret|]. split; [exact Huni | exact Hsleep].
Defined.

Lemma paste_event_counts_witness :
  let whole :=
    [EvSetKeyboardHookEnabled false]
    ++ callEvents (fun _ => false) (fun s => s) 0 (idleWorld true ∅ [])
         0 [0x68; 0x65; 0x6c; 0x6c; 0x6f] false 2
    ++ [EvSetKeyboardHookEnabled true] in
  countEvents (isKeyDownOf VK_V) whole = 1 /\
  countEvents isClipboardEvent whole = 3.
Proof.
  intros whole.
  destruct (paste_event_counts (fun _ => false) (fun s => s) 0
              0 [0x68; 0x65; 0x6c; 0x6c; 0x6f] false 2 (idleWorld true ∅ [])
              eq_refl eq_refl) as (_ & Hv & Hclip).
  split; [exact Hv | exact Hclip].
Defined.

(** "hello" typed with the cursor asked at offset 2: three Left-arrow
    presses, counted on "hello" itself. *)
Lemma reposition_matches_typed_text_witness :
  yields (performTextSubstitution (fun _ => true) (fun s => s) 0
            0 [0x68; 0x65; 0x6c; 0x6c; 0x6f] false 2)
    (idleWorld true ∅ []) tt
    ([EvSetKeyboardHookEnabled false]
     ++ map EvUnicodeKeyDownAndUp [0x68; 0x65; 0x6c; 0x6c; 0x6f]
     ++ repeatEvents 3 (keyDownAndUp VK_LEFT)
     ++ [EvSetKeyboardHookEnabled true]).
Proof.
  exact (proj2 (reposition_matches_typed_text (fun _ => true) (fun s => s) 0
                  0 [0x68; 0x65; 0x6c; 0x6c; 0x6f] false 2
                  (idleWorld true ∅ []) eq_refl eq_refl
                  (conj (Z.le_0_2) eq_refl)
                  (fun H : false = true => False_ind _ (diff_false_true H)))).
Defined.
